(** * lagoonjs: bucket generator and TimeSeries orchestration

    A shallow embedding of [src/modules/generator.js] (the [Generator]
    bucket class and the [TimeSeries] class that follows it in the same
    file), of [TimeRangeEvent.key] ([src/pond/lib/timerangeevent.js]) and of
    [IndexedEvent.key], together with the properties the specification
    states about them; and, past these, of the further operations of
    [TimeSeries] and of the first Series classes that share a file with
    [IndexedEvent], with properties read off their code.

    Conventions of the embedding.
    - Instants are epoch milliseconds, in [Z].
    - A JavaScript call either returns or throws: [completion].
    - JavaScript numbers that the modelled code produces are integers or
      [NaN]: [JsNum].  Integer arithmetic is exact (the double-precision
      rounding of integers beyond 2^53 is not modelled).
    - Event data is enumerated ([_.values], [_.each]) in insertion order:
      an association list.  (JavaScript lists property names that are array
      indices first, and an Immutable.Map of more than eight entries in hash
      order; both are the same for every event of a series and are not
      modelled.)  The meta data of a series is only looked up, updated and
      compared by value: a [gmap].
    - The classes of pond that are not among the sources (TimeRange, Index,
      TimeEvent, Collection) are modelled from the specification, each
      under a comment that says so; [Index.asTimerange] and the pipeline
      are parameters. *)

From Stdlib Require Import ZArith String Ascii Bool Lia.
From Stdlib Require Import Permutation Sorted.
From Stdlib Require DecimalString DecimalZ.
From stdpp Require Import strings gmap list.

Local Open Scope string_scope.
Local Open Scope Z_scope.

(** ** JavaScript values shared by both classes *)

Inductive JsNum : Type :=
| NaN
| Int (z : Z).

(** [String(n)] for an integer below 1e21 in magnitude, and for [NaN]. *)
Definition string_of_Z (z : Z) : string :=
  DecimalString.NilEmpty.string_of_int (Z.to_int z).

Definition JsNum_toString (n : JsNum) : string :=
  match n with
  | NaN => "NaN"
  | Int z => string_of_Z z
  end.

Inductive JsError : Type :=
| Error (message : string)
| TypeError.

Inductive completion (A : Type) : Type :=
| Return (a : A)
| Throw (e : JsError).
Arguments Return {A} a.
Arguments Throw {A} e.

Definition cbind {A B : Type} (c : completion A) (k : A -> completion B)
  : completion B :=
  match c with
  | Return a => k a
  | Throw e => Throw e
  end.

Notation "'let*' x ':=' c 'in' k" := (cbind c (fun x => k))
  (at level 10, x name, c at level 100, k at level 200).

(** [array.map(f)] for an [f] that may throw. *)
Fixpoint traverse {A B : Type} (f : A -> completion B) (l : list A)
  : completion (list B) :=
  match l with
  | [] => Return []
  | a :: rest => let* b := f a in let* bs := traverse f rest in Return (b :: bs)
  end.

(** ** Generator (generator.js, lines 8-76) *)

Module Generator.

(** The [units] table: seconds per unit. *)
Definition units (unit : ascii) : option Z :=
  match unit with
  | "s"%char => Some 1
  | "m"%char => Some 60
  | "h"%char => Some (60 * 60)
  | "d"%char => Some (60 * 60 * 24)
  | _ => None
  end.

Definition is_digit (c : ascii) : bool :=
  ((48 <=? nat_of_ascii c) && (nat_of_ascii c <=? 57))%nat.

Definition is_unit (c : ascii) : bool :=
  match units c with Some _ => true | None => false end.

(** The longest run of digits at the head of [s], and what follows it. *)
Fixpoint span_digits (s : string) : string * string :=
  match s with
  | String c rest =>
      if is_digit c
      then let (ds, tl) := span_digits rest in (String c ds, tl)
      else (EmptyString, s)
  | EmptyString => (EmptyString, EmptyString)
  end.

(** [re.exec(size)] for [re = /([0-9]+)([smhd])/].  The expression is not
    anchored: the match is the leftmost one.  At a start position the greedy
    [[0-9]+] takes the whole run of digits; giving digits back cannot help,
    since the character after a shorter run is a digit, not a unit.  The
    result is the pair of capture groups [(parts[1], parts[2])]. *)
Fixpoint re_exec (size : string) : option (string * ascii) :=
  match size with
  | EmptyString => None
  | String c rest =>
      if is_digit c then
        match span_digits size with
        | (ds, String u _) => if is_unit u then Some (ds, u) else re_exec rest
        | (_, EmptyString) => re_exec rest
        end
      else re_exec rest
  end.

Definition digit_value (c : ascii) : Z := Z.of_nat (nat_of_ascii c) - 48.

(** [parseInt(digits)] on a non-empty string of decimal digits. *)
Definition parseInt_digits (ds : string) : Z :=
  fold_left (fun acc c => 10 * acc + digit_value c) (list_ascii_of_string ds) 0.

(** [getLengthFromSize]: the bucket length in ms, [None] for [undefined]. *)
Definition getLengthFromSize (size : string) : option Z :=
  match re_exec size with
  | Some (num, unit) =>
      match units unit with
      | Some len => Some (parseInt_digits num * len * 1000)
      | None => None
      end
  | None => None
  end.

Record t : Type := mk { size : string; length : option Z }.

(** [constructor(size)] *)
Definition new (size : string) : t :=
  mk size (getLengthFromSize size).

(** [moment.utc(date).valueOf()]: a Date holds at most 8.64e15 ms on either
    side of the epoch, and is invalid ([NaN]) beyond. *)
Definition max_time : Z := 8640000000000000.

Definition valueOf (date : Z) : JsNum :=
  if Z.abs date <=? max_time then Int date else NaN.

(** The first significant digit of [a / b] for [0 < a < b]. *)
Fixpoint leading_digit (fuel : nat) (a b : Z) : Z :=
  match fuel with
  | O => 0
  | S fuel' => if b <=? a then a / b else leading_digit fuel' (10 * a) b
  end.

(** [parseInt(dd / length, 10)] for integers [dd] and [length].  [parseInt]
    reads the integer prefix of [String(dd / length)]:
    - a zero divisor gives [Infinity], [-Infinity] or [NaN], all read as [NaN];
    - a quotient below 1e-6 in magnitude prints in exponent notation
      ([1.1574e-8]), of which [parseInt] reads the first digit;
    - otherwise the decimal expansion is read up to the point: the quotient
      truncated toward zero ([-0] prints as [0]).
    The quotient stays below 1e21 because [|dd| <= max_time]. *)
Definition parseInt_quotient (dd length : Z) : JsNum :=
  if length =? 0 then NaN
  else if dd =? 0 then Int 0
  else if Z.abs dd * 10 ^ 6 <? Z.abs length
       then Int (Z.sgn dd * Z.sgn length *
                 leading_digit (S (Z.to_nat (Z.log2_up (Z.abs length))))
                               (Z.abs dd) (Z.abs length))
  else Int (Z.quot dd length).

(** [getBucketPosFromDate(date, length)] *)
Definition getBucketPosFromDate (date : Z) (length : option Z) : JsNum :=
  match valueOf date, length with
  | Int dd, Some len => parseInt_quotient dd len
  | _, _ => NaN     (* NaN / x, x / undefined *)
  end.

(** [bucketIndex(date)] *)
Definition bucketIndex (g : t) (date : Z) : string :=
  let pos := getBucketPosFromDate date (length g) in
  size g ++ "-" ++ JsNum_toString pos.

(** A whole call: build the generator, ask for the bucket index.  Nothing in
    the class throws, so the call always returns. *)
Definition bucketIndexOf (size : string) (date : Z) : completion string :=
  Return (bucketIndex (new size) date).

Definition all_digits (s : string) : bool :=
  forallb is_digit (list_ascii_of_string s).

(** The size grammar of the specification, [/^[0-9]+[smhd]$/]. *)
Definition matches_grammar (size : string) : bool :=
  match span_digits size with
  | (String _ _, String u EmptyString) => is_unit u
  | _ => false
  end.

End Generator.

(** ** Events (pond/lib/timerangeevent.js, indexedevent.js) *)

(** Data values: JSON scalars (numbers are integers) and nested objects. *)
#[warnings="-register-all"]
Inductive Value : Type :=
| VUndefined
| VNull
| VBool (b : bool)
| VNum (z : Z)
| VStr (s : string)
| VObj (fields : list (string * Value)).

Fixpoint Value_eqb (a b : Value) : bool :=
  match a, b with
  | VUndefined, VUndefined => true
  | VNull, VNull => true
  | VBool x, VBool y => Bool.eqb x y
  | VNum x, VNum y => x =? y
  | VStr x, VStr y => String.eqb x y
  | VObj fa, VObj fb =>
      (fix fields_eqb (l1 l2 : list (string * Value)) : bool :=
         match l1, l2 with
         | [], [] => true
         | (k1, v1) :: r1, (k2, v2) :: r2 =>
             String.eqb k1 k2 && Value_eqb v1 v2 && fields_eqb r1 r2
         | _, _ => false
         end) fa fb
  | _, _ => false
  end.

(** JavaScript truthiness. *)
Definition truthy (v : Value) : bool :=
  match v with
  | VUndefined | VNull => false
  | VBool b => b
  | VNum z => negb (z =? 0)
  | VStr s => negb (String.eqb s "")
  | VObj _ => true
  end.

(** Modelled from the spec: the TimeRange class (timerange.js is not among
    the sources), [{begin: Instant, end: Instant}]. *)
Record TimeRange : Type := mkTimeRange { tr_begin : Z; tr_end : Z }.

(** Modelled from the spec: the Index class (index.js is not among the
    sources), a canonical string, UTC by default, resolvable to a TimeRange.
    [new Index(s, utc)] is [mkIndex s utc]. *)
Record Index : Type := mkIndex { idx_string : string; idx_utc : bool }.

(** The data of an event, an Immutable.Map whose entries are enumerated in
    insertion order. *)
Definition Data : Type := list (string * Value).

(** The closed family of events: the range event of timerangeevent.js,
    the indexed event of indexedevent.js and the point event.  Modelled
    from the spec: the point event (timeevent.js is not among the sources)
    is [PointEvent{timestamp, data}]. *)
Inductive Event : Type :=
| TimeEvent (time : Z) (d : Data)
| TimeRangeEvent (range : TimeRange) (d : Data)
| IndexedEvent (index : Index) (d : Data).

Definition data (e : Event) : Data :=
  match e with
  | TimeEvent _ d | TimeRangeEvent _ d | IndexedEvent _ d => d
  end.

(** [key()].  TimeRangeEvent (timerangeevent.js, 134-136):
    [`${+this.timerange().begin()},${+this.timerange().end()}`];
    IndexedEvent (indexedevent.js, 90-92): [this.indexAsString()];
    the point event's key is its timestamp in ms (spec, section 3). *)
Definition key (e : Event) : string :=
  match e with
  | TimeEvent t _ => string_of_Z t
  | TimeRangeEvent r _ => string_of_Z (tr_begin r) ++ "," ++ string_of_Z (tr_end r)
  | IndexedEvent i _ => idx_string i
  end.

(** The first cell of a point: epoch ms, a [[begin, end]] pair, an index
    string, or any other value ([undefined] included). *)
Inductive KeyCell : Type :=
| KTime (ms : Z)
| KRange (b e : Z)
| KIndex (s : string)
| KOther.

(** A row of the tabular form, [[key, v1, v2, ...]]. *)
Record Point : Type := mkPoint { p_key : KeyCell; p_values : list Value }.

(** [toPoint()]: the key followed by [_.values(this.data().toJSON())]
    (timerangeevent.js 161-163, indexedevent.js 112-114); the point event
    gives its timestamp in ms as the key (spec, section 6). *)
Definition toPoint (e : Event) : Point :=
  match e with
  | TimeEvent t d => mkPoint (KTime t) (map snd d)
  | TimeRangeEvent r d => mkPoint (KRange (tr_begin r) (tr_end r)) (map snd d)
  | IndexedEvent i d => mkPoint (KIndex (idx_string i)) (map snd d)
  end.

Inductive EventKind : Type := KindTime | KindTimeRange | KindIndexed.

(** [new Event(t, d, options)] for the class [kind] (timerangeevent.js
    102-129, indexedevent.js 57-85).  Modelled from the spec: what
    [util.timeRangeFromArg] and [util.indexFromArgs] accept (base/util.js is
    not among the sources) is the key of the tabular form, epoch ms for a
    point event, a [[begin, end]] pair for a range event, an index string
    for an indexed event; they throw on another value.  Only the indexed
    event looks at [options]. *)
Definition newEvent (kind : EventKind) (t : KeyCell) (d : Data) (utc : bool)
  : completion Event :=
  match kind, t with
  | KindTime, KTime ms => Return (TimeEvent ms d)
  | KindTimeRange, KRange b e => Return (TimeRangeEvent (mkTimeRange b e) d)
  | KindIndexed, KIndex s => Return (IndexedEvent (mkIndex s utc) d)
  | _, _ => Throw (Error "Unable to interpret the event key")
  end.

(** Assignment [o[k] = v] on an object: an existing property keeps its
    place, a new one goes last. *)
Fixpoint obj_set {V : Type} (k : string) (v : V) (o : list (string * V))
  : list (string * V) :=
  match o with
  | [] => [(k, v)]
  | (k', v') :: rest =>
      if String.eqb k' k then (k', v) :: rest else (k', v') :: obj_set k v rest
  end.

(** [_.object(list, values)]: [result[list[i]] = values[i]] for every name,
    [undefined] where the values run out. *)
Fixpoint object_from (o : Data) (names : list string) (values : list Value) : Data :=
  match names with
  | [] => o
  | n :: names' =>
      object_from (obj_set n (hd VUndefined values) o) names' (tl values)
  end.

Definition object (names : list string) (values : list Value) : Data :=
  object_from [] names values.

(** ** Collection and TimeSeries (generator.js, lines 78-1625) *)

(** [Index.asTimerange()], on which the timestamp of an indexed event
    rests (indexedevent.js 152-178); index.js is not among the sources. *)
Class IndexResolver : Type := asTimerange : Index -> TimeRange.

(** A value held in the meta data of a series: plain data or an Index. *)
Inductive MetaValue : Type :=
| MVal (v : Value)
| MIndex (i : Index).

Abbreviation Meta := (gmap string MetaValue).

Definition mv_truthy (v : MetaValue) : bool :=
  match v with
  | MVal v => truthy v
  | MIndex _ => true
  end.

(** [buildMetaData(meta)] (99-121).  [d] is [meta] itself, not a copy
    ([let d = meta ? meta : {}]): every assignment to [d] is seen by the
    later reads of [meta].  In particular [meta.utc] is read after
    [d.utc = true]. *)
Definition buildMetaData (meta : Meta) : Meta :=
  let name :=
    match meta !! "name" with
    | Some n => if mv_truthy n then n else MVal (VStr "")
    | None => MVal (VStr "")
    end in
  let d1 := <["name" := name]> meta in
  let d2 :=
    match d1 !! "index" with
    | Some (MVal (VStr s)) =>
        if truthy (VStr s) then <["index" := MIndex (mkIndex s true)]> d1 else d1
    | _ => d1
    end in
  let d3 := <["utc" := MVal (VBool true)]> d2 in
  match d3 !! "utc" with
  | Some (MVal (VBool b)) => <["utc" := MVal (VBool b)]> d3
  | _ => d3
  end.

(** Modelled from the spec: the Collection class (collection.js is not
    among the sources), an ordered sequence of events.  Its constructor
    takes the events as they come: sorting is opt-in. *)
Definition Collection : Type := list Event.

Definition Collection_new (events : list Event) : Collection := events.

Record TimeSeries : Type :=
  mkTimeSeries { _collection : option Collection; _data : option Meta }.

(** The class a series is built as: [this.constructor], of which the code
    uses the static [event]; subclasses may reimplement it (1445-1453). *)
Record SeriesClass : Type := mkClass {
  cls_event : option string -> completion EventKind
}.

(** [static event(eventKey)] (1454-1465); [None] is [undefined]. *)
Definition event (eventKey : option string) : completion EventKind :=
  match eventKey with
  | Some k =>
      if String.eqb k "time" then Return KindTime
      else if String.eqb k "timerange" then Return KindTimeRange
      else if String.eqb k "index" then Return KindIndexed
      else Throw (Error ("Unknown event type: " ++ k))
  | None => Throw (Error "Unknown event type: undefined")
  end.

Definition TimeSeriesClass : SeriesClass := mkClass event.

(** What [schema(eventKey)] (346-373) hands to [avro.parse]: the meta
    fields and the key schema of the event class. *)
Record Schema : Type := mkSchema {
  s_meta : list (string * string);
  s_key : EventKind
}.

Definition metaSchema : list (string * string) := [("name", "string")].

(** [keySchema(eventKey)] (336-339) looks the event class up and so throws
    on an unknown key. *)
Definition keySchema (cls : SeriesClass) (eventKey : option string)
  : completion EventKind :=
  cls_event cls eventKey.

Definition schema (cls : SeriesClass) (eventKey : option string)
  : completion Schema :=
  let* k := keySchema cls eventKey in
  Return (mkSchema metaSchema k).

(** A decoded point, [{[eventKey]: key, data}]. *)
Record AvroPoint : Type := mkAvroPoint {
  ap_name : string;
  ap_key : KeyCell;
  ap_data : Data
}.

(** [point[name]] for the key property of a decoded point. *)
Definition point_get (p : AvroPoint) (name : option string) : KeyCell :=
  match name with
  | Some n => if String.eqb n (ap_name p) then ap_key p else KOther
  | None => KOther
  end.

(** A decoded record: [columns], [points] and its properties as a map. *)
Record AvroObject : Type := mkAvroObject {
  a_columns : list string;
  a_points : list AvroPoint;
  a_rest : Meta
}.

(** The tabular form: [columns], [points] and the properties of the
    object as a map (of which the entries named columns or points, if any,
    are never read). *)
Record Wire : Type := mkWire {
  w_columns : list string;
  w_points : list Point;
  w_rest : Meta
}.

(** The argument of the constructor.  A Buffer is represented by the
    outcome of [fromBuffer] of the avsc library on it, under the schema of
    the class.  An object is represented by the first of [events],
    [collection], [columns]+[points] that it has, with its other
    properties. *)
Inductive Arg : Type :=
| ArgTimeSeries (other : TimeSeries)
| ArgBuffer (decoded : completion AvroObject)
| ArgEvents (events : list Event) (meta1 : Meta)
| ArgCollection (collection : Collection) (meta3 : Meta)
| ArgWire (obj : Wire)
| ArgObject
| ArgOther.

(** [const { columns, points, utc = true, ...meta2 } = obj]: the default
    applies to a missing or [undefined] property; [meta2] holds the
    properties other than these three. *)
Definition utc_of (rest : Meta) : bool :=
  match rest !! "utc" with
  | None | Some (MVal VUndefined) => true
  | Some v => mv_truthy v
  end.

Definition restOf (obj : Meta) : Meta :=
  delete "utc" (delete "points" (delete "columns" obj)).

Lemma Value_eqb_eq (a b : Value) : Value_eqb a b = true <-> a = b.
Proof.
  revert a b. fix IH 1. intros a b.
  destruct a, b; simpl;
    try (split; [discriminate | congruence]); try tauto.
  - rewrite Bool.eqb_true_iff. split; congruence.
  - rewrite Z.eqb_eq. split; congruence.
  - rewrite String.eqb_eq. split; congruence.
  - revert fields0.
    induction fields as [|[k v] r IHr]; intros [|[k' v'] r']; simpl;
      try (split; [discriminate | congruence]); try tauto.
    rewrite !andb_true_iff, String.eqb_eq, IH.
    specialize (IHr r'). split.
    + intros [[-> ->] H]. apply IHr in H. congruence.
    + intros H. inversion H; subst. repeat split; auto.
      apply IHr. reflexivity.
Qed.

#[global] Instance Value_eq_dec : EqDecision Value.
Proof.
  intros a b. destruct (Value_eqb a b) eqn:E.
  - left. apply Value_eqb_eq, E.
  - right. intros H. apply Value_eqb_eq in H. congruence.
Defined.

#[global] Instance TimeRange_eq_dec : EqDecision TimeRange.
Proof. solve_decision. Defined.

#[global] Instance Index_eq_dec : EqDecision Index.
Proof. solve_decision. Defined.

#[global] Instance Event_eq_dec : EqDecision Event.
Proof. solve_decision. Defined.

#[global] Instance MetaValue_eq_dec : EqDecision MetaValue.
Proof. solve_decision. Defined.

Section Series.

Context {resolver : IndexResolver}.

(** [timestamp()]: the instant of a point event, the begin of the range of
    the two others (timerangeevent.js 209-211, indexedevent.js 176-178). *)
Definition timestamp (e : Event) : Z :=
  match e with
  | TimeEvent t _ => t
  | TimeRangeEvent r _ => tr_begin r
  | IndexedEvent i _ => tr_begin (asTimerange i)
  end.

(** Modelled from the spec: [Collection.isChronological()], an O(size)
    check of non-decreasing timestamps. *)
Fixpoint isChronological_from (t : Z) (events : list Event) : bool :=
  match events with
  | [] => true
  | e :: rest => (t <=? timestamp e) && isChronological_from (timestamp e) rest
  end.

Definition isChronological (c : Collection) : bool :=
  match c with
  | [] => true
  | e :: rest => isChronological_from (timestamp e) rest
  end.



(** Modelled from the spec: [Collection.size()], [Collection.at(pos)] and
    [Collection.atFirst()], positional access; [None] is the [undefined]
    of a position that holds no event. *)
Definition Collection_size (c : Collection) : nat := length c.

Definition Collection_at (c : Collection) (pos : nat) : option Event := c !! pos.

Definition Collection_atFirst (c : Collection) : option Event := head c.


(** The chronological guard that closes the object branch (315-319). *)
Definition checkChronological (ts : TimeSeries) : completion TimeSeries :=
  match _collection ts with
  | None => Throw TypeError
  | Some c =>
      if isChronological c then Return ts
      else Throw (Error "TimeSeries was passed non-chronological events")
  end.

(** The callback of [points.map] in the Buffer branch (254-260). *)
Definition readAvroPoint (cls : SeriesClass) (columns : list string)
  (utc : bool) (point : AvroPoint) : completion Event :=
  let t := point_get point (head columns) in
  let d := ap_data point in
  let* Event := cls_event cls (head columns) in
  newEvent Event t d utc.

(** The callback of [points.map] for the tabular form (303-309). *)
Definition readPoint (cls : SeriesClass) (eventKey : option string)
  (eventFields : list string) (utc : bool) (point : Point) : completion Event :=
  let d := object eventFields (p_values point) in
  let* Event := cls_event cls eventKey in
  newEvent Event (p_key point) d utc.

(** [constructor(arg)] (225-321), run for the class [cls]. *)
Definition TimeSeries_new (cls : SeriesClass) (arg : Arg)
  : completion TimeSeries :=
  match arg with
  | ArgTimeSeries other =>
      Return (mkTimeSeries (_collection other) (_data other))
  | ArgBuffer decoded =>
      (* try { obj = this.schema().fromBuffer(arg) } catch (err) { log } *)
      let obj :=
        match schema cls None with
        | Return _ =>
            match decoded with
            | Return o => Some o
            | Throw _ => None
            end
        | Throw _ => None
        end in
      match obj with
      | None => Throw TypeError     (* destructuring [undefined] *)
      | Some o =>
          let columns := a_columns o in
          let utc := utc_of (a_rest o) in
          let meta2 := restOf (a_rest o) in
          let* events := traverse (readAvroPoint cls columns utc) (a_points o) in
          Return (mkTimeSeries (Some (Collection_new events))
                               (Some (buildMetaData meta2)))
      end
  | ArgEvents events meta1 =>
      checkChronological
        (mkTimeSeries (Some (Collection_new events)) (Some (buildMetaData meta1)))
  | ArgCollection collection meta3 =>
      checkChronological
        (mkTimeSeries (Some collection) (Some (buildMetaData meta3)))
  | ArgWire obj =>
      let utc := utc_of (w_rest obj) in
      let meta2 := restOf (w_rest obj) in
      let eventKey := head (w_columns obj) in
      let eventFields := tail (w_columns obj) in
      let* events :=
        traverse (readPoint cls eventKey eventFields utc) (w_points obj) in
      checkChronological
        (mkTimeSeries (Some (Collection_new events)) (Some (buildMetaData meta2)))
  | ArgObject => checkChronological (mkTimeSeries None None)
  | ArgOther => Return (mkTimeSeries None None)
  end.

(** [size()] (763-765) *)
Definition size_of (ts : TimeSeries) : nat :=
  match _collection ts with
  | Some c => Collection_size c
  | None => 0%nat
  end.

(** [at(pos)] (474-476), for a position within the series. *)
Definition at_pos (ts : TimeSeries) (pos : nat) : option Event :=
  match _collection ts with
  | Some c => Collection_at c pos
  | None => None
  end.

(** [events()] (633-637): [at(i)] for [i] from 0 up to [size()]. *)
Definition events_of (ts : TimeSeries) : list Event :=
  match _collection ts with
  | Some c => c
  | None => []
  end.

(** [atFirst()] (497-499); the first event, [undefined] when there is none. *)
Definition atFirst (ts : TimeSeries) : completion (option Event) :=
  match _collection ts with
  | Some c => Return (Collection_atFirst c)
  | None => Throw TypeError
  end.

(** [setCollection(collection, isChronological = false)] (536-547);
    [None] is a missing collection. *)
Definition setCollection (ts : TimeSeries) (collection : option Collection)
  (trusted : bool) : completion TimeSeries :=
  let* _ :=
    if trusted then Return tt
    else match collection with
         | None => Throw TypeError
         | Some c =>
             if isChronological c then Return tt
             else Throw (Error "Collection supplied is not chronological")
         end in
  let* result := TimeSeries_new TimeSeriesClass (ArgTimeSeries ts) in
  match collection with
  | Some c => Return (mkTimeSeries (Some c) (_data result))
  | None => Return (mkTimeSeries (Some (Collection_new [])) (_data result))
  end.

(** The loop of [bisect]: [rest] holds the events from position [i] on. *)
Fixpoint bisect_loop (tms : Z) (rest : list Event) (i : nat) : nat :=
  match rest with
  | [] => (i - 1)%nat
  | e :: rest' =>
      let ts := timestamp e in
      if ts >? tms then (if (1 <=? i)%nat then (i - 1)%nat else 0%nat)
      else if ts =? tms then i
      else bisect_loop tms rest' (S i)
  end.

(** [bisect(t, b)] (557-575); [None] for [b] is a missing start hint
    ([b || 0]), [None] as a result is [undefined]. *)
Definition bisect (ts : TimeSeries) (t : Z) (b : option nat) : option nat :=
  let tms := t in
  let size := size_of ts in
  let i := default 0%nat b in
  if (size =? 0)%nat then None
  else Some (bisect_loop tms (drop i (events_of ts)) i).

(** [columns()] (706-715): the names met in the data of the events, in the
    order of their first appearance. *)
Definition columns (ts : TimeSeries) : list string :=
  let c :=
    foldl (fun c e => foldl (fun c kv => obj_set (fst kv) true c) c (data e))
          [] (events_of ts) in
  map fst c.

(** The name of the first column for the class of [e] (413-420). *)
Definition keyColumn (e : Event) : string :=
  match e with
  | TimeEvent _ _ => "time"
  | TimeRangeEvent _ _ => "timerange"
  | IndexedEvent _ _ => "index"
  end.

(** [this._data.toJSON()]: an Index gives its string. *)
Definition metaToJSON (d : Meta) : Meta :=
  (fun v => match v with
            | MIndex i => MVal (VStr (idx_string i))
            | MVal v => MVal v
            end) <$> d.

(** [toJSON()] (407-428); [None] is the [undefined] of the bare [return].
    [_.extend] puts [columns] and [points] in place of properties of these
    names. *)
Definition toJSON (ts : TimeSeries) : completion (option Wire) :=
  let* e := atFirst ts in
  match e with
  | None => Return None
  | Some e =>
      let columns := keyColumn e :: columns ts in
      let points := map toPoint (events_of ts) in
      match _data ts with
      | None => Throw TypeError
      | Some d =>
          Return (Some (mkWire columns points
                          (delete "points" (delete "columns" (metaToJSON d)))))
      end
  end.



(** *** Rollups (1245-1303) *)

Section Rollup.

(** An aggregation specification, a mapping of output fields to reducers. *)
Variable Aggregation : Type.

(** The pipeline of pipeline.js, which is not among the sources:
    [this.pipeline().windowBy(windowSize).emitOn("discard")
     .aggregate(aggregation)], [.asTimeEvents()] on demand, then
    [.clearWindow().toKeyedCollections()["all"]]. *)
Variable windowedAggregate :
  option Collection -> string -> Aggregation -> bool ->
  completion (option Collection).

(** An options object; [None] is a missing property, and for [aggregation]
    also a value that is no object. *)
Record RollupOptions : Type := mkRollupOptions {
  windowSize : option string;
  aggregation : option Aggregation;
  toTimeEvents : option bool
}.

(** What [fixedWindowRollup] may be handed as its first argument. *)
Inductive RollupArg : Type :=
| RollupString (s : string)
| RollupObject (o : RollupOptions).

(** [const { windowSize, aggregation, toTimeEvents = false } = options]:
    a string has none of these properties. *)
Definition destructure (options : RollupArg) : RollupOptions :=
  match options with
  | RollupString _ => mkRollupOptions None None None
  | RollupObject o => o
  end.

(** [fixedWindowRollup(options)] (1245-1274) *)
Definition fixedWindowRollup (ts : TimeSeries) (options : RollupArg)
  : completion TimeSeries :=
  let o := destructure options in
  match windowSize o with
  | None | Some EmptyString =>
      Throw (Error "windowSize must be supplied, for example '5m' for five minute rollups")
  | Some w =>
      match aggregation o with
      | None =>
          Throw (Error "aggregation object must be supplied, for example: {value: {value: avg()}}")
      | Some agg =>
          let* all :=
            windowedAggregate (_collection ts) w agg (default false (toTimeEvents o)) in
          setCollection ts all true
      end
  end.

(** [hourlyRollup(options)] (1293-1303): the call passes three positional
    arguments, of which [fixedWindowRollup] reads the first. *)
Definition hourlyRollup (ts : TimeSeries) (options : RollupOptions)
  : completion TimeSeries :=
  match aggregation options with
  | None =>
      Throw (Error "aggregation object must be supplied, for example: {value: {value: avg()}}")
  | Some _ => fixedWindowRollup ts (RollupString "1h")
  end.

End Rollup.

(** *** Reducing a list of series (1586-1622) *)

Inductive FieldSpec : Type :=
| FieldPath (path : string)
| FieldPaths (paths : list string).




End Series.

(** ** A resolver for fixed-duration indexes *)

Fixpoint split_dash (s : string) : option (string * string) :=
  match s with
  | EmptyString => None
  | String c rest =>
      if Ascii.eqb c "-" then Some (EmptyString, rest)
      else match split_dash rest with
           | Some (a, b) => Some (String c a, b)
           | None => None
           end
  end.

(** Modelled from the spec: the fixed-duration family of indexes,
    ["<size>-<n>"] with [n = floor(epoch_ms / size_ms)], covers
    [[n * size_ms, (n + 1) * size_ms]].  The calendar family needs a
    calendar and is not resolved here: such an index is given the empty
    range at the epoch. *)
Definition fixedIndexRange (i : Index) : TimeRange :=
  match split_dash (idx_string i) with
  | Some (size, pos) =>
      match Generator.getLengthFromSize size,
            DecimalString.NilEmpty.int_of_string pos with
      | Some len, Some n =>
          mkTimeRange (Z.of_int n * len) ((Z.of_int n + 1) * len)
      | _, _ => mkTimeRange 0 0
      end
  | None => mkTimeRange 0 0
  end.

#[global] Instance fixedResolver : IndexResolver := fixedIndexRange.

(** ** Notions used by the statements *)

(** No comma occurs in [s]. *)
Fixpoint comma_free (s : string) : Prop :=
  match s with
  | EmptyString => True
  | String c rest => c <> ","%char /\ comma_free rest
  end.

(** The names that [_.object] leaves in an object that had the names [ks]:
    each name once, in the order of its first appearance. *)
Fixpoint keys_from (ks : list string) (names : list string) : list string :=
  match names with
  | [] => ks
  | n :: names' =>
      keys_from (if bool_decide (n ∈ ks) then ks else (ks ++ [n])%list) names'
  end.

(** The name and the index that [buildMetaData] stores. *)
Definition metaName (meta : Meta) : MetaValue :=
  match meta !! "name" with
  | Some n => if mv_truthy n then n else MVal (VStr "")
  | None => MVal (VStr "")
  end.

Definition metaIndex (meta : Meta) : option MetaValue :=
  match meta !! "index" with
  | Some (MVal (VStr s)) =>
      if truthy (VStr s) then Some (MIndex (mkIndex s true))
      else Some (MVal (VStr s))
  | other => other
  end.


(** [i] is the greatest position of [ts] whose event is not after [t]. *)
Definition greatest_at_or_before {resolver : IndexResolver}
  (ts : TimeSeries) (t : Z) (i : nat) : Prop :=
  (exists e, at_pos ts i = Some e /\ timestamp e <= t)
  /\ forall j e, at_pos ts j = Some e -> timestamp e <= t -> (j <= i)%nat.

(** A subclass of TimeSeries for Avro, as the comment of [event] invites
    (1445-1453): it reimplements the static [event] to return its own
    event class, a point event, whatever the key. *)
Definition AvroSeriesClass : SeriesClass := mkClass (fun _ => Return KindTime).

(** A point event with one column. *)
Definition sample (t : Z) (v : Z) : Event := TimeEvent t [("value", VNum v)].

(** The series of the specification's example, events at 100, 200, 300. *)
Definition series3 : TimeSeries :=
  mkTimeSeries (Some [sample 100 1; sample 200 2; sample 300 3])
               (Some (buildMetaData ∅)).

(** The series without events that the constructor builds from an empty
    event list. *)
Definition emptySeries : TimeSeries :=
  mkTimeSeries (Some []) (Some (buildMetaData ∅)).


Definition trafficSeries : TimeSeries :=
  mkTimeSeries
    (Some [TimeEvent 1400425947000 [("in", VNum 52); ("out", VNum 12)];
           TimeEvent 1400425948000 [("in", VNum 18); ("out", VNum 30)]])
    (Some (buildMetaData (<["name" := MVal (VStr "traffic")]> ∅))).

(** The constructor is given an event list, a Collection or the tabular
    form. *)
Definition from_object (arg : Arg) : Prop :=
  match arg with
  | ArgEvents _ _ | ArgCollection _ _ | ArgWire _ => True
  | _ => False
  end.

(** * Further operations *)

(** ** TimeSeries: meta data, positions, slices (generator.js) *)

(** What [meta(key)] returns: all the meta data as an object, or the value
    under one key; [None] is [undefined]. *)
Inductive MetaResult : Type :=
| MetaAll (m : Meta)
| MetaOne (v : option MetaValue).

(** The options of [fill]; [None] is a missing property. *)
Record FillOptions : Type := mkFillOptions {
  fill_fieldSpec : option FieldSpec;
  fill_method : option string;
  fill_limit : option nat
}.

Section SeriesOperations.

Context {resolver : IndexResolver}.

(** [this._data.get(key)] *)
Definition data_get (ts : TimeSeries) (key : string)
  : completion (option MetaValue) :=
  match _data ts with
  | Some d => Return (d !! key)
  | None => Throw TypeError
  end.

(** [name()] (647-649) *)
Definition name (ts : TimeSeries) : completion (option MetaValue) :=
  data_get ts "name".

(** [index()] (663-665) *)
Definition index (ts : TimeSeries) : completion (option MetaValue) :=
  data_get ts "index".

(** [indexAsString()] (672-674): [asString] is a method of Index alone. *)
Definition indexAsString (ts : TimeSeries) : completion (option string) :=
  let* i := index ts in
  match i with
  | Some (MIndex i) => Return (Some (idx_string i))
  | Some (MVal v) => if truthy v then Throw TypeError else Return None
  | None => Return None
  end.

(** [isUTC()] (694-696) *)
Definition isUTC (ts : TimeSeries) : completion (option MetaValue) :=
  data_get ts "utc".

(** [meta(key)] (735-741); a missing or empty key is falsy. *)
Definition meta (ts : TimeSeries) (key : option string) : completion MetaResult :=
  match key with
  | None | Some EmptyString =>
      match _data ts with
      | Some d => Return (MetaAll (metaToJSON d))
      | None => Throw TypeError
      end
  | Some k => let* v := data_get ts k in Return (MetaOne v)
  end.

(** [setMeta(key, value)] (747-753) *)
Definition setMeta (ts : TimeSeries) (key : string) (value : MetaValue)
  : completion TimeSeries :=
  let* newTimeSeries := TimeSeries_new TimeSeriesClass (ArgTimeSeries ts) in
  match _data newTimeSeries with
  | Some d =>
      let dd := <[key := value]> d in
      Return (mkTimeSeries (_collection newTimeSeries) (Some dd))
  | None => Throw TypeError
  end.

(** [setName(name)] (654-656) *)
Definition setName (ts : TimeSeries) (name : MetaValue) : completion TimeSeries :=
  setMeta ts "name" name.

(** [count()] (786-788) *)
Definition count (ts : TimeSeries) : nat := size_of ts.

(** [atTime(time)] (485-490): [undefined >= 0] is false. *)
Definition atTime (ts : TimeSeries) (time : Z) : option Event :=
  match bisect ts time None with
  | Some pos => if (pos <? size_of ts)%nat then at_pos ts pos else None
  | None => None
  end.

(** Modelled from the spec: [Collection.slice(begin, end)], a half-open
    positional range; a missing [begin] is 0, a missing [end] the size. *)
Definition Collection_slice (c : Collection) (b e : option nat) : Collection :=
  let b' := default 0%nat b in
  let e' := default (length c) e in
  take (e' - b') (drop b' c).

(** [slice(begin, end)] (587-590) *)
Definition slice (ts : TimeSeries) (b e : option nat) : completion TimeSeries :=
  match _collection ts with
  | Some c => setCollection ts (Some (Collection_slice c b e)) true
  | None => Throw TypeError
  end.

(** [crop(timerange)] (600-604) *)
Definition crop (ts : TimeSeries) (timerange : TimeRange) : completion TimeSeries :=
  let beginPos := bisect ts (tr_begin timerange) None in
  let endPos := bisect ts (tr_end timerange) beginPos in
  slice ts beginPos endPos.

(** *** toAvro (378-399) *)

Section Avro.

(** An Avro buffer, and [toBuffer] of the avsc library for a schema. *)
Variable Buffer : Type.
Variable toBuffer : Schema -> AvroObject -> completion Buffer.

(** The record that [toAvro] hands to the encoder: the result of [toJSON]
    with each point turned into [{[eventKey]: point[0], data}], where
    [data[c] = point[i + 1]] for the column [c] at [i].  Reading
    [d.columns] of an [undefined] [d] is a TypeError. *)
Definition avroRecord (ts : TimeSeries) : completion AvroObject :=
  let* d := toJSON ts in
  match d with
  | None => Throw TypeError
  | Some d =>
      let eventKey := default "undefined" (head (w_columns d)) in
      let columns := tail (w_columns d) in
      let points :=
        map (fun point =>
               mkAvroPoint eventKey (p_key point)
                           (object columns (p_values point)))
            (w_points d) in
      Return (mkAvroObject (w_columns d) points (w_rest d))
  end.

(** [toAvro()]: an error of the schema or of the encoder is reported and
    the call returns [undefined]. *)
Definition toAvro (cls : SeriesClass) (ts : TimeSeries)
  : completion (option Buffer) :=
  let* d := avroRecord ts in
  let eventKey := head (a_columns d) in
  match (let* s := schema cls eventKey in toBuffer s d) with
  | Return buf => Return (Some buf)
  | Throw _ => Return None
  end.

End Avro.

(** *** Calendar rollups (1322-1415) and fill (1103-1125) *)

Section Pipelines.

Variable Aggregation : Type.

(** The aggregating pipeline, as for [fixedWindowRollup]. *)
Variable windowedAggregate :
  option Collection -> string -> Aggregation -> bool ->
  completion (option Collection).

(** [_rollup(type, aggregation, toTimeEvents = false)] (1399-1415) *)
Definition _rollup (ts : TimeSeries) (type : string) (agg : Aggregation)
  (toTimeEvents : option bool) : completion TimeSeries :=
  let* all :=
    windowedAggregate (_collection ts) type agg (default false toTimeEvents) in
  setCollection ts all true.

(** [dailyRollup(options)] (1322-1332):
    [const { aggregation, toTimeEvents = false } = options]. *)
Definition dailyRollup (ts : TimeSeries) (options : RollupOptions Aggregation)
  : completion TimeSeries :=
  let toTimeEvents := default false (toTimeEvents Aggregation options) in
  match aggregation Aggregation options with
  | None =>
      Throw (Error "aggregation object must be supplied, for example: {value: {value: avg()}}")
  | Some aggregation => _rollup ts "daily" aggregation (Some toTimeEvents)
  end.

(** [monthlyRollup(options)] (1351-1361) *)
Definition monthlyRollup (ts : TimeSeries) (options : RollupOptions Aggregation)
  : completion TimeSeries :=
  let toTimeEvents := default false (toTimeEvents Aggregation options) in
  match aggregation Aggregation options with
  | None =>
      Throw (Error "aggregation object must be supplied, for example: {value: {value: avg()}}")
  | Some aggregation => _rollup ts "monthly" aggregation (Some toTimeEvents)
  end.

(** [yearlyRollup(options)] (1381-1391) *)
Definition yearlyRollup (ts : TimeSeries) (options : RollupOptions Aggregation)
  : completion TimeSeries :=
  let toTimeEvents := default false (toTimeEvents Aggregation options) in
  match aggregation Aggregation options with
  | None =>
      Throw (Error "aggregation object must be supplied, for example: {value: {value: avg()}}")
  | Some aggregation => _rollup ts "yearly" aggregation (Some toTimeEvents)
  end.

(** The pipeline of pipeline.js, which is not among the sources:
    [this.pipeline()], that is [new Pipeline().from(collection)], its [fill]
    stage, and [toKeyedCollections()["all"]]. *)
Variable Pipeline : Type.
Variable pipeline_from : option Collection -> completion Pipeline.
Variable pipeline_fill :
  Pipeline -> option FieldSpec -> string -> option nat -> completion Pipeline.
Variable toKeyedCollections_all : Pipeline -> completion (option Collection).

(** [fill(options)] (1103-1125).  [new Error("Invalid fill method:", method)]
    keeps its first argument as the message. *)
Definition fill (ts : TimeSeries) (options : FillOptions) : completion TimeSeries :=
  let fieldSpec := fill_fieldSpec options in
  let method := default "zero" (fill_method options) in
  let limit := fill_limit options in
  let* pipeline := pipeline_from (_collection ts) in
  let* pipeline :=
    if String.eqb method "zero" || String.eqb method "pad" then
      pipeline_fill pipeline fieldSpec method limit
    else
      match String.eqb method "linear", fieldSpec with
      | true, Some (FieldPaths paths) =>
          foldl (fun pipeline fieldPath =>
                   let* p := pipeline in
                   pipeline_fill p (Some (FieldPath fieldPath)) method limit)
                (Return pipeline) paths
      | _, _ => Throw (Error "Invalid fill method:")
      end in
  let* all := toKeyedCollections_all pipeline in
  setCollection ts all true.

End Pipelines.

End SeriesOperations.

(** ** Further notions used by the statements *)

(** The meta data that the object branches of the constructor hand to
    [buildMetaData]: the properties of the argument other than the events,
    the collection, or [columns], [points] and [utc]. *)
Definition givenMeta (arg : Arg) : Meta :=
  match arg with
  | ArgEvents _ meta1 => meta1
  | ArgCollection _ meta3 => meta3
  | ArgWire obj => restOf (w_rest obj)
  | _ => ∅
  end.


(** ** The first Series classes (unnamed/part_000, lines 182-796) *)

Module Legacy.

(** What a call throws. *)
Inductive Exception : Type :=
| ReferenceError (identifier : string)
| TypeError.

Inductive outcome (A : Type) : Type :=
| Done (a : A)
| Raise (e : Exception).
Arguments Done {A} a.
Arguments Raise {A} e.

(** [map.get(key)] on a data map: [undefined] for a missing key. *)
Fixpoint get (d : Data) (k : string) : Value :=
  match d with
  | [] => VUndefined
  | (k', v) :: rest => if String.eqb k' k then v else get rest k
  end.

(** The fields of an instance; a field that was never assigned reads
    [undefined]: [VUndefined] for the name, [None] for the others. *)
Record Series : Type := mkSeries {
  _name : Value;
  _meta : option (gmap string Value);
  _columns : option (list string);
  _series : option (list Data);
  _times : option (list Value)
}.

Definition blank : Series := mkSeries VUndefined None None None None.

(** The callback of [_.map(data, ...)] in the object constructor (273-279):
    [pointMap[columns[i]] = p] for the value [p] at [i] of a row; past the
    columns, [columns[i]] is [undefined] and names the property
    ["undefined"]. *)
Fixpoint pointMap_from (o : Data) (columns : list string) (d : list Value) : Data :=
  match d with
  | [] => o
  | p :: d' => pointMap_from (obj_set (hd "undefined" columns) p o) (tl columns) d'
  end.

Definition pointMap (columns : list string) (d : list Value) : Data :=
  pointMap_from [] columns d.

(** The rows handed to the constructor of Series: an Immutable.List of data
    maps, or an array of arrays of values. *)
Inductive Rows : Type :=
| RowsList (maps : list Data)
| RowsArray (rows : list (list Value)).

(** The arguments of the constructor of Series: another series; a call
    whose second argument is an object, whose third is an array and whose
    fourth is an array or an Immutable.List; anything else. *)
Inductive SeriesArg : Type :=
| SCopy (other : Series)
| SObject (name : Value) (meta : gmap string Value) (columns : list string) (data : Rows)
| SOther.

(** [Series(arg1, arg2, arg3, arg4)] (237-283), run on the instance [this].
    The copy reads [other._names], a field that no class assigns. *)
Definition Series_init (this : Series) (arg : SeriesArg) : Series :=
  match arg with
  | SCopy other =>
      mkSeries VUndefined (_meta other) (_columns other) (_series other) (_times this)
  | SObject name meta columns data =>
      match name with
      | VStr _ =>
          let series :=
            match data with
            | RowsList maps => maps
            | RowsArray rows => map (pointMap columns) rows
            end in
          mkSeries name (Some meta) (Some columns) (Some series) (_times this)
      | _ => this
      end
  | SOther => this
  end.

Definition Series_new (arg : SeriesArg) : Series := Series_init blank arg.

(** [name()], [size()], [count()], [meta(key)] of Series (317-339) *)
Definition name (s : Series) : Value := _name s.

Definition size (s : Series) : outcome nat :=
  match _series s with
  | Some series => Done (length series)
  | None => Raise TypeError
  end.

Definition count (s : Series) : outcome nat := size s.

Definition meta (s : Series) (key : string) : outcome Value :=
  match _meta s with
  | Some m => Done (default VUndefined (m !! key))
  | None => Raise TypeError
  end.

Record SeriesJSON : Type := mkSeriesJSON {
  sj_name : Value;
  sj_columns : list string;
  sj_points : list (list Value)
}.

(** [toJSON()] of Series (292-304).  The callback of [cols.map] reads
    [data], which is declared nowhere in its scope: it throws at the first
    row and column. *)
Definition Series_toJSON (s : Series) : outcome SeriesJSON :=
  match _columns s with
  | None => Raise TypeError
  | Some cols =>
      match _series s with
      | None => Raise TypeError
      | Some series =>
          match series, cols with
          | _ :: _, _ :: _ => Raise (ReferenceError "data")
          | _, _ => Done (mkSeriesJSON (_name s) cols (map (fun _ => []) series))
          end
      end
  end.

(** [uniqueKeys(events).toJSON()] (404-454): the keys of the data of the
    events, collected in an Immutable.Set: each once, enumerated in the
    order of their first appearance, as the data maps are. *)
Definition uniqueKeys (events : list (Value * Data)) : list string :=
  keys_from [] (concat (map (fun e => map fst (snd e)) events)).

(** The arguments of the constructor of TimeSeries: another series; an
    object with [events], given as the timestamp and the data of each
    event, its [name] and its other properties; an object with [columns] and
    [points], its [name] and its other properties; another object; anything
    else.  A missing [name] is [VUndefined]. *)
Inductive TimeSeriesArg : Type :=
| TCopy (other : Series)
| TEvents (events : list (Value * Data)) (name : Value) (meta : gmap string Value)
| TWire (name : Value) (columns : list string) (points : list (list Value))
        (meta : gmap string Value)
| TObject
| TOther.

(** [TimeSeries(arg1)] (482-589).  The copy assigns neither a name (it
    reads [other._names]) nor the meta data. *)
Definition TimeSeries_new (arg : TimeSeriesArg) : Series :=
  match arg with
  | TCopy other =>
      mkSeries VUndefined None (_columns other) (_series other) (_times other)
  | TEvents events name meta =>
      let columns := uniqueKeys events in
      let times := map fst events in
      let data := map snd events in
      let this := mkSeries VUndefined None None None (Some times) in
      Series_init this (SObject name meta columns (RowsList data))
  | TWire name columns points meta =>
      let name := if truthy name then name else VStr "" in
      let columns := tl columns in
      let times := map (hd VUndefined) points in
      let data := map (@tl Value) points in
      let this := mkSeries VUndefined None None None (Some times) in
      Series_init this (SObject name meta columns (RowsArray data))
  | TObject | TOther => blank
  end.

(** The object that [toJSON] of TimeSeries returns: [name], [columns],
    [points] and the other properties. *)
Record JSON : Type := mkJSON {
  j_name : Value;
  j_columns : list string;
  j_points : list (list Value);
  j_rest : gmap string Value
}.

(** The rows of [toJSON]: for the data map at [i],
    [[times.get(i), value.get(column) ...]]; [times] holds the times from
    [i] on. *)
Fixpoint points_from (times : list Value) (cols : list string) (series : list Data)
  : list (list Value) :=
  match series with
  | [] => []
  | value :: rest =>
      (hd VUndefined times :: map (get value) cols) :: points_from (tl times) cols rest
  end.

(** [toJSON()] of TimeSeries (604-629) *)
Definition TimeSeries_toJSON (s : Series) : outcome JSON :=
  match _series s with
  | None => Raise TypeError
  | Some series =>
      let points :=
        match series with
        | [] => Done []
        | _ :: _ =>
            match _times s, _columns s with
            | Some times, Some cols => Done (points_from times cols series)
            | _, _ => Raise TypeError
            end
        end in
      match points with
      | Raise e => Raise e
      | Done points =>
          match _columns s with
          | None => Raise TypeError
          | Some cols =>
              match _meta s with
              | None => Raise TypeError
              | Some m =>
                  Done (mkJSON (_name s) ("time" :: cols) points
                          (delete "name" (delete "columns" (delete "points" m))))
              end
          end
      end
  end.

End Legacy.

(** * Properties *)

(** ** Generator *)

Lemma is_unit_not_digit u :
  Generator.is_unit u = true -> Generator.is_digit u = false.
Proof.
  unfold Generator.is_unit, Generator.units.
  destruct u as [[] [] [] [] [] [] [] []]; simpl; try discriminate; reflexivity.
Qed.

Lemma span_digits_app ds u rest :
  Generator.all_digits ds = true -> Generator.is_digit u = false ->
  Generator.span_digits (ds ++ String u rest) = (ds, String u rest).
Proof.
  intros Hds Hu. induction ds as [|c ds IH]; simpl.
  - rewrite Hu. reflexivity.
  - unfold Generator.all_digits in Hds. simpl in Hds.
    apply andb_true_iff in Hds as [Hc Hds].
    rewrite Hc, (IH Hds). reflexivity.
Qed.

(** On a string of the grammar the pattern matches all of it. *)
Lemma re_exec_grammar ds u :
  ds <> "" -> Generator.all_digits ds = true -> Generator.is_unit u = true ->
  Generator.re_exec (ds ++ String u "") = Some (ds, u).
Proof.
  intros Hne Hds Hu. destruct ds as [|c ds]; [congruence|].
  pose proof (span_digits_app (String c ds) u "" Hds (is_unit_not_digit u Hu)) as Hs.
  unfold Generator.all_digits in Hds. simpl in Hds.
  apply andb_true_iff in Hds as [Hc Hds].
  change (String c ds ++ String u "") with (String c (ds ++ String u "")) in *.
  cbn [Generator.re_exec]. rewrite Hc, Hs, Hu. reflexivity.
Qed.

Lemma span_digits_spec s ds tl :
  Generator.span_digits s = (ds, tl) ->
  s = ds ++ tl /\ Generator.all_digits ds = true.
Proof.
  revert ds tl. induction s as [|c s IH]; simpl; intros ds tl E.
  - inversion E. split; reflexivity.
  - destruct (Generator.is_digit c) eqn:Hc.
    + destruct (Generator.span_digits s) as [ds' tl'] eqn:E'. inversion E; subst.
      destruct (IH _ _ eq_refl) as [-> Hd]. split; [reflexivity|].
      unfold Generator.all_digits. simpl. rewrite Hc. exact Hd.
    + inversion E; subst. split; reflexivity.
Qed.

(** [matches_grammar] is the grammar: digits, at least one, then a unit. *)
Lemma matches_grammar_inv size :
  Generator.matches_grammar size = true ->
  exists ds u, size = ds ++ String u "" /\ ds <> ""
               /\ Generator.all_digits ds = true /\ Generator.is_unit u = true.
Proof.
  unfold Generator.matches_grammar.
  destruct (Generator.span_digits size) as [ds tl] eqn:E.
  destruct ds as [|c ds]; [discriminate|].
  destruct tl as [|u [|]]; try discriminate.
  intros Hu. apply span_digits_spec in E as [-> Hd].
  exists (String c ds), u. repeat split; auto; discriminate.
Qed.

Lemma getLengthFromSize_grammar ds u m :
  ds <> "" -> Generator.all_digits ds = true -> Generator.units u = Some m ->
  Generator.getLengthFromSize (ds ++ String u "")
  = Some (Generator.parseInt_digits ds * m * 1000).
Proof.
  intros Hne Hds Hu. unfold Generator.getLengthFromSize.
  rewrite re_exec_grammar by (auto; unfold Generator.is_unit; rewrite Hu; reflexivity).
  rewrite Hu. reflexivity.
Qed.






(** ** Event keys *)

Lemma string_of_Z_inj a b : string_of_Z a = string_of_Z b -> a = b.
Proof.
  unfold string_of_Z. intros H.
  apply (f_equal DecimalString.NilEmpty.int_of_string) in H.
  rewrite !DecimalString.NilEmpty.isi in H. inversion H as [H'].
  apply (f_equal Z.of_int) in H'. rewrite !DecimalZ.of_to in H'. exact H'.
Qed.

Lemma string_of_uint_comma_free u : comma_free (DecimalString.NilEmpty.string_of_uint u).
Proof. induction u; simpl; auto; split; auto; discriminate. Qed.

Lemma string_of_Z_comma_free z : comma_free (string_of_Z z).
Proof.
  unfold string_of_Z. destruct (Z.to_int z); simpl.
  - apply string_of_uint_comma_free.
  - split; [discriminate | apply string_of_uint_comma_free].
Qed.

Lemma comma_split a a' b b' :
  comma_free a -> comma_free a' ->
  a ++ "," ++ b = a' ++ "," ++ b' -> a = a' /\ b = b'.
Proof.
  revert a'. induction a as [|c a IH]; intros [|c' a'] Ha Ha' E; simpl in *.
  - inversion E. auto.
  - inversion E; subst. destruct Ha' as [Hc _]. congruence.
  - inversion E; subst. destruct Ha as [Hc _]. congruence.
  - inversion E; subst. destruct Ha as [_ Ha], Ha' as [_ Ha'].
    destruct (IH a' Ha Ha' H1) as [-> ->]. auto.
Qed.

(** C9.  The key of a range event is ["<begin>,<end>"], both in epoch
    milliseconds; the key of an indexed event is its index string.  Two
    range events have the same key exactly when they cover the same range,
    two indexed events exactly when they have the same index string. *)
Theorem key_canonical :
  (forall r d, key (TimeRangeEvent r d)
               = string_of_Z (tr_begin r) ++ "," ++ string_of_Z (tr_end r))
  /\ (forall i d, key (IndexedEvent i d) = idx_string i)
  /\ (forall r1 d1 r2 d2,
        key (TimeRangeEvent r1 d1) = key (TimeRangeEvent r2 d2) <-> r1 = r2)
  /\ (forall i1 d1 i2 d2,
        key (IndexedEvent i1 d1) = key (IndexedEvent i2 d2)
        <-> idx_string i1 = idx_string i2).
Proof.
  repeat split; try (intros; subst; reflexivity); try (simpl; tauto).
  simpl. intros E. destruct r1 as [b1 e1], r2 as [b2 e2]. simpl in E.
  apply comma_split in E as [Eb Ee]; try apply string_of_Z_comma_free.
  apply string_of_Z_inj in Eb, Ee. congruence.
Qed.

(** ** TimeSeries *)

Section SeriesProperties.

Context {resolver : IndexResolver}.

(** *** bisect *)

(** The timestamps of a chronological collection do not decrease. *)
Lemma isChronological_from_le t events :
  isChronological_from t events = true ->
  forall j e, events !! j = Some e -> t <= timestamp e.
Proof.
  revert t. induction events as [|x rest IH]; intros t H j e Hj; [discriminate|].
  simpl in H. apply andb_true_iff in H as [Hx Hrest]. apply Z.leb_le in Hx.
  destruct j as [|j]; simpl in Hj.
  - inversion Hj; subst. exact Hx.
  - specialize (IH _ Hrest j e Hj). lia.
Qed.

Lemma isChronological_from_tail t x rest :
  isChronological_from t (x :: rest) = true -> isChronological rest = true.
Proof.
  simpl. intros H. apply andb_true_iff in H as [_ H].
  destruct rest as [|y rest]; [reflexivity|].
  simpl in *. apply andb_true_iff in H as [_ H]. exact H.
Qed.

Lemma isChronological_lookup c :
  isChronological c = true ->
  forall i j ei ej, (i <= j)%nat -> c !! i = Some ei -> c !! j = Some ej ->
  timestamp ei <= timestamp ej.
Proof.
  induction c as [|x rest IH]; intros H i j ei ej Hij Hi Hj; [discriminate|].
  destruct i as [|i], j as [|j]; simpl in Hi, Hj; try lia.
  - inversion Hi; inversion Hj; subst. lia.
  - inversion Hi; subst. simpl in H. eapply isChronological_from_le; eauto.
  - apply (IH (isChronological_from_tail (timestamp x) x rest ltac:(simpl; rewrite Z.leb_refl; exact H)) i j); auto. lia.
Qed.

(** What the loop computes, whatever the order of the events: it stops at
    the first event that is not before [tms]. *)
Lemma bisect_loop_stop tms rest i :
  (forall j e, rest !! j = Some e -> timestamp e < tms) ->
  bisect_loop tms rest i = (i + length rest - 1)%nat.
Proof.
  revert i. induction rest as [|x rest IH]; intros i H; simpl.
  - lia.
  - pose proof (H 0%nat x eq_refl) as Hx.
    destruct (Z.gtb_spec (timestamp x) tms); [exfalso; lia|].
    destruct (Z.eqb_spec (timestamp x) tms); [exfalso; lia|].
    rewrite IH; [lia|]. intros j e Hj. apply (H (S j) e Hj).
Qed.

Lemma bisect_loop_first tms rest i k e :
  (forall j e', (j < k)%nat -> rest !! j = Some e' -> timestamp e' < tms) ->
  rest !! k = Some e -> tms <= timestamp e ->
  bisect_loop tms rest i =
    if timestamp e =? tms then (i + k)%nat else (i + k - 1)%nat.
Proof.
  revert i k. induction rest as [|x rest IH]; intros i k Hbefore Hk Hge; [discriminate|].
  destruct k as [|k]; simpl in Hk.
  - inversion Hk; subst. simpl.
    destruct (Z.gtb_spec (timestamp e) tms).
    + destruct (Z.eqb_spec (timestamp e) tms); [exfalso; lia|].
      destruct i; simpl; lia.
    + destruct (Z.eqb_spec (timestamp e) tms); [|exfalso; lia]. lia.
  - pose proof (Hbefore 0%nat x ltac:(lia) eq_refl) as Hx. simpl.
    destruct (Z.gtb_spec (timestamp x) tms); [exfalso; lia|].
    destruct (Z.eqb_spec (timestamp x) tms); [exfalso; lia|].
    rewrite (IH (S i) k); auto.
    + destruct (timestamp e =? tms); lia.
    + intros j e' Hj He'. apply (Hbefore (S j) e'); [lia | exact He'].
Qed.

Lemma first_not_before t (c : list Event) :
  (forall j e, c !! j = Some e -> timestamp e < t)
  \/ exists k e, c !! k = Some e /\ t <= timestamp e
       /\ forall j e', (j < k)%nat -> c !! j = Some e' -> timestamp e' < t.
Proof.
  induction c as [|x rest IH].
  - left. intros j e Hj. discriminate.
  - destruct (Z.lt_ge_cases (timestamp x) t) as [Hx|Hx].
    + destruct IH as [IH|(k & e & Hk & Hge & Hbefore)].
      * left. intros [|j] e Hj; simpl in Hj; [inversion Hj; subst; exact Hx | eauto].
      * right. exists (S k), e. repeat split; auto.
        intros [|j] e' Hj He'; simpl in He'.
        -- inversion He'; subst. exact Hx.
        -- apply (Hbefore j e'); [lia | exact He'].
    + right. exists 0%nat, x. repeat split; auto. intros j e' Hj. lia.
Qed.

(** C3 (as amended).  On an empty series [bisect] returns [undefined].  On
    a chronologically ordered series with events, [bisect(t)] with the
    default start hint returns a position [i] of the series: 0 when [t]
    precedes all events, the last position when [t] follows all events;
    and when some event is not after [t], the event at [i] is not after
    [t], every event before [i] is before [t], and every event after [i] is
    after [t] or shares the timestamp [t] with the event at [i].  So [i] is
    the first position holding the timestamp [t] if there is one, and
    otherwise the greatest position whose timestamp is below [t]. *)
Theorem bisect_first_at_or_last_before (ts : TimeSeries) (c : Collection) (t : Z) :
  _collection ts = Some c -> isChronological c = true ->
  (c = [] -> bisect ts t None = None)
  /\ (c <> [] ->
      exists i e,
        bisect ts t None = Some i /\ c !! i = Some e
        /\ ((forall j e', c !! j = Some e' -> t < timestamp e') -> i = 0%nat)
        /\ ((forall j e', c !! j = Some e' -> timestamp e' < t) ->
            i = (length c - 1)%nat)
        /\ ((exists j e', c !! j = Some e' /\ timestamp e' <= t) ->
            timestamp e <= t
            /\ (forall j e', c !! j = Some e' -> (j < i)%nat -> timestamp e' < t)
            /\ (forall j e', c !! j = Some e' -> (i < j)%nat ->
                t < timestamp e' \/ (timestamp e' = t /\ timestamp e = t)))).
Proof.
  intros Hc Hchron. split.
  { intros ->. unfold bisect, size_of, Collection_size. rewrite Hc. reflexivity. }
  intros Hne.
  assert (Hsorted := isChronological_lookup c Hchron).
  assert (Hlen : (0 < length c)%nat) by (destruct c; [congruence | simpl; lia]).
  destruct (lookup_lt_is_Some_2 c 0%nat Hlen) as [e0 H0].
  unfold bisect, size_of, events_of, Collection_size. rewrite Hc.
  cbn [default]. rewrite drop_0.
  replace (length c =? 0)%nat with false by (symmetry; apply Nat.eqb_neq; lia).
  clear Hne.
  destruct (first_not_before t c) as [Hall|(k & ek & Hk & Hge & Hbefore)].
  - (* every event is before t *)
    rewrite (bisect_loop_stop t c 0 Hall). simpl.
    destruct (lookup_lt_is_Some_2 c (length c - 1)%nat ltac:(lia)) as [e He].
    exists (length c - 1)%nat, e. repeat split; auto.
    + intros Hp. specialize (Hp _ _ H0). specialize (Hall _ _ H0). lia.
    + specialize (Hall _ _ He). lia.
    + intros j e' Hj _. eauto.
    + intros j e' Hj Hij. apply lookup_lt_Some in Hj. lia.
  - rewrite (bisect_loop_first t c 0 k ek Hbefore Hk Hge). simpl.
    destruct (Z.eqb_spec (timestamp ek) t) as [Heq|Hneq].
    + (* the first event at t *)
      exists k, ek. repeat split; auto.
      * intros Hp. specialize (Hp _ _ Hk). lia.
      * intros Hf. specialize (Hf _ _ Hk). lia.
      * lia.
      * intros j e' Hj Hjk. eauto.
      * intros j e' Hj Hkj.
        pose proof (Hsorted k j ek e' ltac:(lia) Hk Hj). lia.
    + assert (Hgt : t < timestamp ek) by lia.
      destruct k as [|k].
      * (* t is before every event *)
        simpl. exists 0%nat, e0. rewrite H0 in Hk. inversion Hk; subst ek.
        repeat split; auto.
        -- intros Hf. specialize (Hf _ _ H0). lia.
        -- destruct H as (j & e' & Hj & He').
           pose proof (Hsorted 0%nat j e0 e' ltac:(lia) H0 Hj). lia.
        -- intros j e' Hj Hlt. lia.
        -- intros j e' Hj Hlt. left.
           pose proof (Hsorted 0%nat j e0 e' ltac:(lia) H0 Hj). lia.
      * (* the last event before t *)
        replace (S k - 1)%nat with k by lia.
        destruct (lookup_lt_is_Some_2 c k) as [e He].
        { apply lookup_lt_Some in Hk. lia. }
        pose proof (Hbefore k e ltac:(lia) He) as Hlt.
        exists k, e. repeat split; auto.
        -- intros Hp. specialize (Hp _ _ He). lia.
        -- intros Hf. specialize (Hf _ _ Hk). lia.
        -- lia.
        -- intros j e' Hj Hjk. apply (Hbefore j e'); [lia | exact Hj].
        -- intros j e' Hj Hkj. left.
           pose proof (Hsorted (S k) j ek e' ltac:(lia) Hk Hj). lia.
Qed.

(** *** The constructor *)

(** The object branches end in the chronological guard: what they return
    wraps a chronological collection. *)
Lemma checkChronological_Return ts ts' :
  checkChronological ts = Return ts' ->
  ts' = ts /\ exists c, _collection ts = Some c /\ isChronological c = true.
Proof.
  unfold checkChronological. destruct (_collection ts) as [c|]; [|discriminate].
  destruct (isChronological c) eqn:E; [|discriminate].
  intros H; inversion H; subst. eauto.
Qed.

(** The constructor on an event list, a Collection or the tabular form, and
    [setCollection] with its default flag, return only series that wrap a
    chronological collection (315-319, 537-539). *)
Theorem object_branches_chronological (cls : SeriesClass) (arg : Arg) (ts : TimeSeries) :
  from_object arg ->
  TimeSeries_new cls arg = Return ts ->
  exists c, _collection ts = Some c /\ isChronological c = true.
Proof.
  intros Hobj Hnew.
  destruct arg as [other|decoded|events meta1|collection meta3|obj| |];
    try contradiction; cbn [TimeSeries_new] in Hnew.
  - apply checkChronological_Return in Hnew as [-> H]. exact H.
  - apply checkChronological_Return in Hnew as [-> H]. exact H.
  - destruct (traverse _ (w_points obj)) as [events|]; [|discriminate].
    apply checkChronological_Return in Hnew as [-> H]. exact H.
Qed.

Lemma setCollection_chronological ts c ts' :
  setCollection ts (Some c) false = Return ts' ->
  _collection ts' = Some c /\ isChronological c = true.
Proof.
  unfold setCollection. destruct (isChronological c) eqn:E; [|discriminate].
  cbn. intros H; inversion H; subst. auto.
Qed.


(** C2.  A buffer that does not decode makes the constructor throw: the
    decoding error is caught and reported, [obj] stays [undefined], and the
    destructuring of [obj] that follows raises a TypeError (242-251).  For
    TimeSeries itself every buffer ends so, because [this.schema()] is
    called without an event key and [event(undefined)] throws. *)
Theorem buffer_decode_failure_throws :
  (forall cls e, TimeSeries_new cls (ArgBuffer (Throw e)) = Throw TypeError)
  /\ (forall decoded,
        TimeSeries_new TimeSeriesClass (ArgBuffer decoded) = Throw TypeError).
Proof.
  split.
  - intros cls e. cbn [TimeSeries_new]. destruct (schema cls None); reflexivity.
  - intros decoded. reflexivity.
Qed.

(** *** Rollups *)

(** C4.  [hourlyRollup] with an aggregation never returns a series: it
    hands [fixedWindowRollup] the string ["1h"] where the options object is
    expected, and fails the [windowSize] guard.  [fixedWindowRollup] with
    [windowSize: "1h"] passes the guards and returns what the pipeline
    yields. *)
Theorem hourlyRollup_always_throws
  (Aggregation : Type)
  (windowedAggregate : option Collection -> string -> Aggregation -> bool ->
                       completion (option Collection))
  (ts : TimeSeries) (agg : Aggregation) (w : option string) (tte : option bool) :
  hourlyRollup Aggregation windowedAggregate ts (mkRollupOptions Aggregation w (Some agg) tte)
  = Throw (Error "windowSize must be supplied, for example '5m' for five minute rollups")
  /\ fixedWindowRollup Aggregation windowedAggregate ts
       (RollupObject Aggregation (mkRollupOptions Aggregation (Some "1h") (Some agg) tte))
     = (let* all := windowedAggregate (_collection ts) "1h" agg (default false tte) in
        setCollection ts all true).
Proof. split; reflexivity. Qed.

(** *** Reducing a list of series *)



Lemma isChronological_cons e rest :
  isChronological (e :: rest) = isChronological_from (timestamp e) rest.
Proof. reflexivity. Qed.





(** *** toJSON and back *)

Lemma buildMetaData_lookup meta k :
  buildMetaData meta !! k =
    if decide (k = "utc") then Some (MVal (VBool true))
    else if decide (k = "index") then metaIndex meta
    else if decide (k = "name") then Some (metaName meta)
    else meta !! k.
Proof.
  unfold buildMetaData. fold (metaName meta).
  set (d1 := <["name" := metaName meta]> meta).
  assert (Hidx : d1 !! "index" = meta !! "index") by (unfold d1; rewrite lookup_insert_ne; done).
  rewrite Hidx.
  set (d2 := match meta !! "index" with
             | Some (MVal (VStr s)) => if truthy (VStr s) then <["index" := MIndex (mkIndex s true)]> d1 else d1
             | _ => d1 end).
  rewrite lookup_insert_eq.
  assert (Hd2 : forall k', d2 !! k' = if decide (k' = "index") then metaIndex meta else d1 !! k').
  { intros k'. unfold d2, metaIndex. destruct (decide (k' = "index")) as [->|Hne].
    - destruct (meta !! "index") as [[[| |b|z|s|f]|i]|] eqn:E; try exact Hidx.
      destruct (truthy (VStr s)); [rewrite lookup_insert_eq; reflexivity | exact Hidx].
    - destruct (meta !! "index") as [[[| |b|z|s|f]|i]|]; try reflexivity.
      destruct (truthy (VStr s)); [rewrite lookup_insert_ne by done|]; reflexivity. }
  rewrite insert_insert_eq.
  destruct (decide (k = "utc")) as [->|Hutc].
  - rewrite lookup_insert_eq. reflexivity.
  - rewrite lookup_insert_ne by done. rewrite Hd2.
    destruct (decide (k = "index")); [reflexivity|].
    unfold d1. destruct (decide (k = "name")) as [->|Hname].
    + rewrite lookup_insert_eq. reflexivity.
    + rewrite lookup_insert_ne by done. reflexivity.
Qed.



Section ObjectLemmas.
Context {V : Type}.
Implicit Types (o : list (string * V)) (k : string) (v : V).

Lemma obj_set_fresh k v o :
  k ∉ map fst o -> obj_set k v o = (o ++ [(k, v)])%list.
Proof.
  induction o as [|[k' v'] rest IH]; simpl; intros Hk; [reflexivity|].
  apply not_elem_of_cons in Hk as [Hne Hk].
  destruct (String.eqb_spec k' k); [congruence|]. rewrite IH by assumption. reflexivity.
Qed.

Lemma obj_set_keys_present k v o :
  k ∈ map fst o -> map fst (obj_set k v o) = map fst o.
Proof.
  induction o as [|[k' v'] rest IH]; simpl; intros Hk.
  - inversion Hk.
  - destruct (String.eqb_spec k' k); [reflexivity|]. simpl.
    apply elem_of_cons in Hk as [Hk|Hk]; [congruence|]. rewrite IH by assumption. reflexivity.
Qed.

End ObjectLemmas.

Lemma obj_set_keys {V} k (v : V) o :
  map fst (obj_set k v o) = if bool_decide (k ∈ map fst o) then map fst o else (map fst o ++ [k])%list.
Proof.
  destruct (bool_decide_reflect (k ∈ map fst o)).
  - apply obj_set_keys_present. assumption.
  - rewrite obj_set_fresh by assumption. rewrite map_app. reflexivity.
Qed.

Lemma object_from_keys o names values :
  map fst (object_from o names values) = keys_from (map fst o) names.
Proof.
  revert o values. induction names as [|n names IH]; intros o values; simpl; [reflexivity|].
  rewrite IH, obj_set_keys. reflexivity.
Qed.

Lemma keys_from_NoDup ks names : NoDup ks -> NoDup (keys_from ks names).
Proof.
  revert ks. induction names as [|n names IH]; intros ks Hks; simpl; [assumption|].
  apply IH. destruct (bool_decide_reflect (n ∈ ks)); [assumption|].
  apply NoDup_app. repeat split; auto.
  - intros x Hx Hx'. apply list_elem_of_singleton in Hx'. congruence.
  - apply NoDup_singleton.
Qed.



Lemma object_from_fresh o (d : Data) :
  NoDup (map fst o ++ map fst d)%list ->
  object_from o (map fst d) (map snd d) = (o ++ d)%list.
Proof.
  revert o. induction d as [|[k v] d IH]; intros o Hnd; simpl.
  - rewrite app_nil_r. reflexivity.
  - assert (Hk : k ∉ map fst o).
    { apply NoDup_app in Hnd as (_ & Hd & _). intros Hin. apply (Hd k Hin). left. }
    rewrite obj_set_fresh by assumption.
    rewrite IH.
    + rewrite <- app_assoc. reflexivity.
    + rewrite map_app. simpl. rewrite <- app_assoc. exact Hnd.
Qed.

(** [_.object] undoes the split of an object into names and values. *)
Lemma object_keys_values (d : Data) :
  NoDup (map fst d) -> object (map fst d) (map snd d) = d.
Proof. intros H. unfold object. rewrite object_from_fresh; auto. Qed.

Lemma object_keys names values : map fst (object names values) = keys_from [] names.
Proof. unfold object. rewrite object_from_keys. reflexivity. Qed.

Lemma object_NoDup names values : NoDup (map fst (object names values)).
Proof. rewrite object_keys. apply keys_from_NoDup. constructor. Qed.









End SeriesProperties.

(** * The properties at concrete inputs *)

(** ** Generator *)

Example bucketIndex_hour : Generator.bucketIndexOf "1h" 3600000 = Return "1h-1".
Proof. reflexivity. Qed.

Example bucketIndex_unanchored :
  Generator.matches_grammar "x5my" = false
  /\ Generator.bucketIndexOf "x5my" 600000 = Return "x5my-2".
Proof. split; reflexivity. Qed.

Example bucketIndex_exponent_notation :
  Generator.bucketIndexOf "1d" 1 = Return "1d-1".
Proof. reflexivity. Qed.



(** C6 at the failing input: one millisecond before the epoch lies in the
    bucket -1 of one second, and [bucketIndex] answers 0, the bucket that
    starts at the epoch. *)
Theorem bucketIndex_before_epoch_not_floor :
  Generator.matches_grammar "1s" = true
  /\ (-1) / (1 * 1 * 1000) = -1
  /\ Generator.bucketIndexOf "1s" (-1) = Return "1s-0"
  /\ Generator.bucketIndexOf "1s" (-1)
     <> Return ("1s" ++ "-" ++ string_of_Z ((-1) / (1 * 1 * 1000))).
Proof. repeat split; try reflexivity. discriminate. Qed.


(** ** TimeSeries *)

Example bisect_examples :
  bisect series3 150 None = Some 0%nat
  /\ bisect series3 200 None = Some 1%nat
  /\ bisect series3 50 None = Some 0%nat
  /\ bisect series3 400 None = Some 2%nat
  /\ bisect (mkTimeSeries (Some []) (Some (buildMetaData ∅))) 150 None = None.
Proof. repeat split; reflexivity. Qed.

(** C3, the claim refuted: of two events at 100, [bisect(100)] returns the
    first, which is not the greatest position with a timestamp up to 100. *)
Lemma bisect_tie_returns_first :
  let c := [sample 100 1; sample 100 2; sample 200 3] in
  let ts := mkTimeSeries (Some c) (Some (buildMetaData ∅)) in
  isChronological c = true
  /\ bisect ts 100 None = Some 0%nat
  /\ ~ greatest_at_or_before ts 100 0.
Proof.
  split; [reflexivity|]. split; [reflexivity|].
  intros [_ H]. specialize (H 1%nat (sample 100 2) eq_refl). simpl in H. lia.
Qed.

(** C3 (as amended) on the series of the example, at 250. *)
Lemma bisect_witness :
  exists i e,
    bisect series3 250 None = Some i
    /\ [sample 100 1; sample 200 2; sample 300 3] !! i = Some e
    /\ timestamp e <= 250.
Proof.
  destruct (bisect_first_at_or_last_before series3
              [sample 100 1; sample 200 2; sample 300 3] 250 eq_refl eq_refl)
    as [_ H].
  destruct (H ltac:(discriminate)) as (i & e & Hb & He & _ & _ & Hle).
  exists i, e. split; [exact Hb|]. split; [exact He|].
  apply Hle. exists 0%nat, (sample 100 1). split; [reflexivity | simpl; lia].
Defined.


(** The same points in the tabular form are refused. *)
Example tabular_branch_refuses_unordered_points :
  TimeSeries_new AvroSeriesClass
    (ArgWire (mkWire ["time"; "value"]
                [mkPoint (KTime 200) [VNum 1]; mkPoint (KTime 100) [VNum 2]]
                (<["name" := MVal (VStr "traffic")]> ∅)))
  = Throw (Error "TimeSeries was passed non-chronological events").
Proof. reflexivity. Qed.

(** The guard of the object branches on an event list in order. *)
Lemma object_branches_chronological_witness :
  exists c,
    _collection (mkTimeSeries (Some [sample 1 10; sample 2 20]) (Some (buildMetaData ∅)))
    = Some c
    /\ isChronological c = true.
Proof.
  apply (object_branches_chronological TimeSeriesClass
           (ArgEvents [sample 1 10; sample 2 20] ∅)); [exact I | reflexivity].
Defined.







(** The meta data that [buildMetaData] stores says UTC whatever the
    argument says: [d.utc = true] is written to the argument itself before
    [meta.utc] is read. *)
Example buildMetaData_utc_aliasing :
  buildMetaData (<["utc" := MVal (VBool false)]> ∅) !! "utc"
  = Some (MVal (VBool true)).
Proof. reflexivity. Qed.

Example toJSON_traffic :
  toJSON trafficSeries
  = Return (Some (mkWire ["time"; "in"; "out"]
                    [mkPoint (KTime 1400425947000) [VNum 52; VNum 12];
                     mkPoint (KTime 1400425948000) [VNum 18; VNum 30]]
                    (<["utc" := MVal (VBool true)]>
                       (<["name" := MVal (VStr "traffic")]> ∅)))).
Proof. vm_compute. reflexivity. Qed.

(** * Further properties *)

(** ** Generator: what a size specifier is taken for *)




(** X4.  A specifier of the grammar whose count is zero ([0s], [00h]) has
    the bucket length 0: the division gives no finite quotient and the
    index is ["<size>-NaN"] whatever the date. *)
Theorem bucketIndex_zero_count (ds : string) (u : ascii) (date : Z) :
  ds <> "" -> Generator.all_digits ds = true -> Generator.is_unit u = true ->
  Generator.parseInt_digits ds = 0 ->
  Generator.bucketIndexOf (ds ++ String u "") date
  = Return ((ds ++ String u "") ++ "-NaN").
Proof.
  intros Hne Hds Hu Hzero.
  unfold Generator.is_unit in Hu. destruct (Generator.units u) as [m|] eqn:Em; [|discriminate].
  unfold Generator.bucketIndexOf, Generator.bucketIndex, Generator.new.
  cbn [Generator.size Generator.length].
  rewrite (getLengthFromSize_grammar ds u m Hne Hds Em), Hzero.
  unfold Generator.getBucketPosFromDate.
  destruct (Generator.valueOf date); reflexivity.
Qed.

(** ** TimeSeries: positions, slices and crops *)

Section OperationProperties.

Context {resolver : IndexResolver}.

(** Where the loop of [bisect] stops: at the first event, [k] places on,
    that is not before [tms], or at the end. *)
Lemma bisect_loop_spec tms rest i :
  exists k, (k <= length rest)%nat
    /\ (forall j e, (j < k)%nat -> rest !! j = Some e -> timestamp e < tms)
    /\ ((k = length rest /\ bisect_loop tms rest i = (i + k - 1)%nat)
        \/ (exists e, rest !! k = Some e /\ timestamp e = tms
                      /\ bisect_loop tms rest i = (i + k)%nat)
        \/ (exists e, rest !! k = Some e /\ tms < timestamp e
                      /\ bisect_loop tms rest i = (i + k - 1)%nat)).
Proof.
  destruct (first_not_before tms rest) as [Hall|(k & e & Hk & Hge & Hbefore)].
  - exists (length rest). split; [lia|]. split; [intros j e _ Hj; eauto|].
    left. split; [reflexivity|]. apply bisect_loop_stop, Hall.
  - exists k. split; [apply lookup_lt_Some in Hk; lia|]. split; [exact Hbefore|].
    rewrite (bisect_loop_first tms rest i k e Hbefore Hk Hge).
    destruct (Z.eqb_spec (timestamp e) tms) as [Heq|Hne].
    + right; left. eauto.
    + right; right. exists e. repeat split; auto. lia.
Qed.

(** Events before [tms] are passed over. *)
Lemma bisect_loop_app tms (l1 l2 : list Event) i :
  (forall j e, l1 !! j = Some e -> timestamp e < tms) ->
  bisect_loop tms (l1 ++ l2)%list i = bisect_loop tms l2 (i + length l1)%nat.
Proof.
  revert i. induction l1 as [|x l1 IH]; intros i H; simpl.
  - f_equal. lia.
  - pose proof (H 0%nat x eq_refl) as Hx.
    destruct (Z.gtb_spec (timestamp x) tms); [exfalso; lia|].
    destruct (Z.eqb_spec (timestamp x) tms); [exfalso; lia|].
    rewrite IH by (intros j e Hj; apply (H (S j) e Hj)). f_equal. lia.
Qed.

Lemma bisect_Some ts c t b :
  _collection ts = Some c -> c <> [] ->
  bisect ts t b = Some (bisect_loop t (drop (default 0%nat b) c) (default 0%nat b)).
Proof.
  intros Hc Hne. unfold bisect, size_of, events_of, Collection_size. rewrite Hc.
  destruct c; [congruence | reflexivity].
Qed.

Lemma bisect_loop_bounds t (c : list Event) b :
  let i := bisect_loop t (drop b c) b in
  (b - 1 <= i)%nat
  /\ ((b < length c)%nat -> (i < length c)%nat)
  /\ ((length c <= b)%nat -> i = (b - 1)%nat).
Proof.
  intros i. subst i.
  destruct (bisect_loop_spec t (drop b c) b) as (k & Hk & _ & Hcase).
  rewrite length_drop in Hk.
  destruct Hcase as [[_ ->]|[(e & He & _ & ->)|(e & He & _ & ->)]];
    try (apply lookup_lt_Some in He; rewrite length_drop in He); lia.
Qed.

(** X5.  [bisect] with a start hint [b] on a series with events: from a
    hint inside the series the result is a position of the series, not
    below [b - 1]; a hint at or past the end is returned lowered by one,
    whatever the time, so past the end it is no position of the series. *)
Theorem bisect_hint_bounds (ts : TimeSeries) (c : Collection) (t : Z) (b : nat) :
  _collection ts = Some c -> c <> [] ->
  exists i, bisect ts t (Some b) = Some i
    /\ (b - 1 <= i)%nat
    /\ ((b < length c)%nat -> (i < length c)%nat)
    /\ ((length c <= b)%nat -> i = (b - 1)%nat).
Proof.
  intros Hc Hne. rewrite (bisect_Some ts c t (Some b) Hc Hne). cbn [default].
  eexists. split; [reflexivity|]. apply bisect_loop_bounds.
Qed.

Lemma bisect_loop_hint t (c : list Event) b :
  (b <= length c)%nat ->
  (forall j e, (j < b)%nat -> c !! j = Some e -> timestamp e < t) ->
  bisect_loop t (drop b c) b = bisect_loop t c 0.
Proof.
  intros Hb Hbefore. rewrite <- (take_drop b c) at 2.
  rewrite bisect_loop_app.
  - rewrite length_take. f_equal. lia.
  - intros j e Hj. pose proof (lookup_lt_Some _ _ _ Hj) as Hlt.
    rewrite length_take in Hlt. rewrite lookup_take_lt in Hj by lia.
    apply (Hbefore j e); [lia | exact Hj].
Qed.

(** X6.  A start hint does not change the result of [bisect] when every
    event before the hinted position is before the time sought: the scan
    from 0 passes these events anyway. *)
Theorem bisect_hint_agrees (ts : TimeSeries) (c : Collection) (t : Z) (b : nat) :
  _collection ts = Some c -> (b <= length c)%nat ->
  (forall j e, (j < b)%nat -> c !! j = Some e -> timestamp e < t) ->
  bisect ts t (Some b) = bisect ts t None.
Proof.
  intros Hc Hb Hbefore. destruct c as [|x c'] eqn:E.
  - unfold bisect, size_of, Collection_size. rewrite Hc. reflexivity.
  - rewrite <- E in *. assert (Hne : c <> []) by (rewrite E; discriminate).
    rewrite !(bisect_Some ts c t _ Hc Hne). cbn [default]. rewrite drop_0.
    f_equal. apply bisect_loop_hint; assumption.
Qed.

Lemma bisect_position ts c t :
  _collection ts = Some c -> c <> [] ->
  exists i e, bisect ts t None = Some i /\ c !! i = Some e /\ atTime ts t = Some e.
Proof.
  intros Hc Hne. pose proof (bisect_Some ts c t None Hc Hne) as Hb. cbn [default] in Hb.
  pose proof (bisect_loop_bounds t c 0) as (_ & Hlt & _). cbn zeta in Hlt.
  assert (Hlen : (0 < length c)%nat) by (destruct c; [congruence | simpl; lia]).
  specialize (Hlt Hlen).
  destruct (lookup_lt_is_Some_2 c _ Hlt) as [e He].
  exists (bisect_loop t (drop 0 c) 0), e. split; [exact Hb|]. split; [exact He|].
  unfold atTime. rewrite Hb. unfold size_of, at_pos, Collection_size, Collection_at.
  rewrite Hc. apply Nat.ltb_lt in Hlt. rewrite Hlt. exact He.
Qed.

(** X7.  [atTime(t)] returns [undefined] exactly on a series without
    events.  On a chronological series with events it returns an event of
    the series: one with the greatest timestamp that is not after [t] when
    there is an event not after [t], and the first event, which is after
    [t], when [t] precedes all events. *)
Theorem atTime_latest_not_after (ts : TimeSeries) (c : Collection) (t : Z) :
  _collection ts = Some c ->
  (c = [] -> atTime ts t = None)
  /\ (c <> [] ->
      exists e, atTime ts t = Some e /\ e ∈ c
        /\ (isChronological c = true ->
            ((exists e', e' ∈ c /\ timestamp e' <= t) ->
             timestamp e <= t
             /\ forall e', e' ∈ c -> timestamp e' <= t -> timestamp e' <= timestamp e)
            /\ ((forall e', e' ∈ c -> t < timestamp e') -> head c = Some e))).
Proof.
  intros Hc. split.
  { intros ->. unfold atTime, bisect, size_of, Collection_size. rewrite Hc. reflexivity. }
  intros Hne. destruct (bisect_position ts c t Hc Hne) as (i & e & Hb & He & Hat).
  exists e. split; [exact Hat|]. split; [eapply list_elem_of_lookup_2; exact He|].
  intros Hchron. pose proof (isChronological_lookup c Hchron) as Hsorted.
  rewrite (bisect_Some ts c t None Hc Hne) in Hb. cbn [default] in Hb. rewrite drop_0 in Hb.
  inversion Hb as [Hi]; clear Hb.
  destruct (bisect_loop_spec t c 0) as (k & Hk & Hbefore & Hcase).
  destruct Hcase as [[-> Hr]|[(ek & Hek & Heq & Hr)|(ek & Hek & Hgt & Hr)]];
    rewrite Hr in Hi; subst i.
  - (* every event is before t *)
    assert (Hlt : timestamp e < t).
    { apply (Hbefore (0 + length c - 1)%nat e); [apply lookup_lt_Some in He; lia | exact He]. }
    split.
    + intros _. split; [lia|]. intros e' He' _.
      apply list_elem_of_lookup_1 in He' as [j Hj].
      apply (Hsorted j (0 + length c - 1)%nat e' e); auto.
      apply lookup_lt_Some in Hj. lia.
    + intros Hall. specialize (Hall e (list_elem_of_lookup_2 _ _ _ He)). lia.
  - (* an event at t *)
    cbn [Nat.add] in He. assert (Hee : Some e = Some ek) by (rewrite <- He; exact Hek).
      inversion Hee; subst ek; clear Hee. split.
    + intros _. split; [lia|]. intros e' _ Hle. lia.
    + intros Hall. specialize (Hall e (list_elem_of_lookup_2 _ _ _ Hek)). lia.
  - destruct k as [|k].
    + (* t precedes all events *)
      cbn [Nat.add Nat.sub] in He. assert (Hee : Some e = Some ek) by (rewrite <- He; exact Hek).
      inversion Hee; subst ek; clear Hee. split.
      * intros (e' & He' & Hle). apply list_elem_of_lookup_1 in He' as [j Hj].
        pose proof (Hsorted 0%nat j e e' ltac:(lia) Hek Hj). lia.
      * intros _. destruct c; [discriminate | exact Hek].
    + replace (0 + S k - 1)%nat with k in He by lia.
      assert (Hlt : timestamp e < t) by (apply (Hbefore k e); [lia | exact He]).
      split.
      * intros _. split; [lia|]. intros e' He' Hle.
        apply list_elem_of_lookup_1 in He' as [j Hj].
        destruct (Nat.le_gt_cases j k) as [Hjk|Hjk].
        -- apply (Hsorted j k e' e); auto.
        -- pose proof (Hsorted (S k) j ek e' ltac:(lia) Hek Hj). lia.
      * intros Hall. specialize (Hall e (list_elem_of_lookup_2 _ _ _ He)). lia.
Qed.

(** Chronological order, by positions. *)
Lemma isChronological_from_sorted x (rest : list Event) :
  (forall i j ei ej, (i <= j)%nat -> (x :: rest) !! i = Some ei ->
     (x :: rest) !! j = Some ej -> timestamp ei <= timestamp ej) ->
  isChronological_from (timestamp x) rest = true.
Proof.
  revert x. induction rest as [|y rest IH]; intros x H; [reflexivity|]. simpl.
  apply andb_true_iff. split.
  - apply Z.leb_le. apply (H 0%nat 1%nat x y); auto.
  - apply IH. intros i j ei ej Hij Hi Hj. apply (H (S i) (S j) ei ej); auto. lia.
Qed.

Lemma isChronological_sorted (c : list Event) :
  (forall i j ei ej, (i <= j)%nat -> c !! i = Some ei -> c !! j = Some ej ->
     timestamp ei <= timestamp ej) ->
  isChronological c = true.
Proof.
  destruct c as [|x rest]; [reflexivity|]. apply isChronological_from_sorted.
Qed.

(** A run of consecutive events of a chronological collection is
    chronological. *)
Lemma isChronological_segment (c : list Event) i n :
  isChronological c = true -> isChronological (take n (drop i c)) = true.
Proof.
  intros Hchron. pose proof (isChronological_lookup c Hchron) as Hsorted.
  apply isChronological_sorted. intros a b ea eb Hab Ha Hb.
  apply lookup_take_Some in Ha as [Ha _]. apply lookup_take_Some in Hb as [Hb _].
  rewrite lookup_drop in Ha, Hb.
  apply (Hsorted (i + a)%nat (i + b)%nat); auto. lia.
Qed.

Lemma slice_Return ts c b e :
  _collection ts = Some c ->
  slice ts b e = Return (mkTimeSeries (Some (Collection_slice c b e)) (_data ts)).
Proof. intros Hc. unfold slice. rewrite Hc. reflexivity. Qed.

(** X8.  [slice(begin, end)] hands its result to [setCollection] as
    trusted, and rightly so: the slice of a chronological series is
    chronological.  It holds the events of the positions from [begin]
    (0 when missing) up to but not including [end] (the size when missing),
    cut at the size of the series, and keeps the meta data. *)
Theorem slice_chronological (ts : TimeSeries) (c : Collection) (b e : option nat) :
  _collection ts = Some c ->
  let b' := default 0%nat b in
  let e' := default (length c) e in
  exists c',
    slice ts b e = Return (mkTimeSeries (Some c') (_data ts))
    /\ length c' = (Nat.min e' (length c) - b')%nat
    /\ (forall j, (b' + j < e')%nat -> c' !! j = c !! (b' + j)%nat)
    /\ (forall j, (e' <= b' + j)%nat -> c' !! j = None)
    /\ (isChronological c = true -> isChronological c' = true).
Proof.
  intros Hc b' e'. exists (Collection_slice c b e).
  split; [apply slice_Return, Hc|]. unfold Collection_slice, Collection in *.
  fold b' e'. clearbody b' e'.
  split; [rewrite length_take, length_drop; lia|].
  split; [intros j Hj; rewrite lookup_take_lt by lia; apply lookup_drop|].
  split; [intros j Hj; apply lookup_take_ge; lia|].
  apply isChronological_segment.
Qed.

Lemma crop_positions ts c r :
  _collection ts = Some c -> c <> [] ->
  let ib := bisect_loop (tr_begin r) c 0 in
  let ie := bisect_loop (tr_end r) (drop ib c) ib in
  crop ts r = Return (mkTimeSeries (Some (take (ie - ib) (drop ib c))) (_data ts)).
Proof.
  intros Hc Hne ib ie. unfold crop.
  rewrite (bisect_Some ts c _ None Hc Hne). cbn [default]. rewrite drop_0.
  rewrite (bisect_Some ts c _ (Some _) Hc Hne). cbn [default].
  rewrite (slice_Return ts c _ _ Hc). reflexivity.
Qed.

Lemma crop_empty ts r :
  _collection ts = Some [] ->
  crop ts r = Return (mkTimeSeries (Some []) (_data ts)).
Proof.
  intros Hc. unfold crop, bisect, size_of, Collection_size. rewrite Hc.
  cbn [length Nat.eqb]. rewrite (slice_Return ts [] _ _ Hc). reflexivity.
Qed.

(** X9.  [crop(timerange)] returns, with the meta data of the series, a
    run of consecutive events of the series that lie before the end of the
    range.  The run never reaches the last event of the series: the end
    position comes from [bisect], which is at most the last position, and
    [slice] excludes it. *)
Theorem crop_before_end (ts : TimeSeries) (c : Collection) (r : TimeRange) :
  _collection ts = Some c ->
  exists i c',
    crop ts r = Return (mkTimeSeries (Some c') (_data ts))
    /\ c' = take (length c') (drop i c)
    /\ (i + length c' <= length c - 1)%nat
    /\ Forall (fun e => timestamp e < tr_end r) c'.
Proof.
  intros Hc. destruct c as [|x c0] eqn:E.
  { exists 0%nat, []. rewrite (crop_empty ts r Hc). repeat split; auto. }
  rewrite <- E in *. assert (Hne : c <> []) by (rewrite E; discriminate). clear E.
  pose proof (crop_positions ts c r Hc Hne) as Hcrop. cbn zeta in Hcrop.
  set (ib := bisect_loop (tr_begin r) c 0) in *.
  set (ie := bisect_loop (tr_end r) (drop ib c) ib) in *.
  assert (Hlen : (0 < length c)%nat) by (destruct c; [congruence | simpl; lia]).
  assert (Hib : (ib < length c)%nat).
  { pose proof (bisect_loop_bounds (tr_begin r) c 0) as (_ & H & _). apply H, Hlen. }
  assert (Hie : (ie < length c)%nat).
  { pose proof (bisect_loop_bounds (tr_end r) c ib) as (_ & H & _). apply H, Hib. }
  exists ib, (take (ie - ib) (drop ib c)). split; [exact Hcrop|].
  rewrite length_take, length_drop.
  split.
  { destruct (Nat.le_gt_cases (ie - ib) (length c - ib)).
    - rewrite Nat.min_l by lia. reflexivity.
    - rewrite Nat.min_r by lia. rewrite !take_ge by (rewrite length_drop; lia).
      reflexivity. }
  split; [lia|].
  destruct (bisect_loop_spec (tr_end r) (drop ib c) ib) as (k & Hk & Hbefore & Hcase).
  fold ie in Hcase.
  assert (Hiek : (ie - ib <= k)%nat).
  { destruct Hcase as [[_ H]|[(? & _ & _ & H)|(? & _ & _ & H)]]; lia. }
  apply Forall_lookup. intros j e Hj. apply lookup_take_Some in Hj as [Hj Hlt].
  apply (Hbefore j e); [lia | exact Hj].
Qed.

(** X10.  The crop of a chronological series is chronological, and its
    events after the first are not before the begin of the range; only its
    first event may precede the range. *)
Theorem crop_chronological (ts : TimeSeries) (c : Collection) (r : TimeRange) :
  _collection ts = Some c -> isChronological c = true ->
  exists c',
    crop ts r = Return (mkTimeSeries (Some c') (_data ts))
    /\ isChronological c' = true
    /\ forall j e, (0 < j)%nat -> c' !! j = Some e -> tr_begin r <= timestamp e.
Proof.
  intros Hc Hchron. destruct c as [|x c0] eqn:E.
  { exists []. rewrite (crop_empty ts r Hc). repeat split; auto. intros j e _ Hj. discriminate. }
  rewrite <- E in *. assert (Hne : c <> []) by (rewrite E; discriminate). clear E.
  pose proof (crop_positions ts c r Hc Hne) as Hcrop. cbn zeta in Hcrop.
  set (ib := bisect_loop (tr_begin r) c 0) in *.
  set (ie := bisect_loop (tr_end r) (drop ib c) ib) in *.
  exists (take (ie - ib) (drop ib c)). split; [exact Hcrop|].
  split; [apply isChronological_segment, Hchron|].
  pose proof (isChronological_lookup c Hchron) as Hsorted.
  intros j e Hj He. apply lookup_take_Some in He as [He _]. rewrite lookup_drop in He.
  destruct (bisect_loop_spec (tr_begin r) c 0) as (k & Hk & _ & Hcase).
  fold ib in Hcase.
  destruct Hcase as [[-> Hr]|[(ek & Hek & Heq & Hr)|(ek & Hek & Hgt & Hr)]].
  - apply lookup_lt_Some in He. lia.
  - pose proof (Hsorted k (ib + j)%nat ek e ltac:(lia) Hek He). lia.
  - pose proof (Hsorted k (ib + j)%nat ek e ltac:(lia) Hek He). lia.
Qed.

(** X22.  What [crop] keeps of a chronological series: every event from
    the begin of the range on and before its end is in the crop, provided
    a later event of the series is not after the end of the range.  So of
    the events in the range the crop misses at most the last ones, those
    that no event at or before the end follows. *)
Theorem crop_keeps_all_but_last (ts : TimeSeries) (c : Collection) (r : TimeRange)
  (j : nat) (e : Event) :
  _collection ts = Some c -> isChronological c = true ->
  c !! j = Some e -> tr_begin r <= timestamp e < tr_end r ->
  (exists j' e', (j < j')%nat /\ c !! j' = Some e' /\ timestamp e' <= tr_end r) ->
  exists c', crop ts r = Return (mkTimeSeries (Some c') (_data ts)) /\ e ∈ c'.
Proof.
  intros Hc Hchron Hj [Hbegin Hend] (j' & e' & Hjj' & Hj' & He').
  assert (Hne : c <> []) by (intros ->; discriminate).
  pose proof (crop_positions ts c r Hc Hne) as Hcrop. cbn zeta in Hcrop.
  set (ib := bisect_loop (tr_begin r) c 0) in *.
  set (ie := bisect_loop (tr_end r) (drop ib c) ib) in *.
  pose proof (isChronological_lookup c Hchron) as Hsorted.
  eexists. split; [exact Hcrop|].
  (* the event is not before the begin position *)
  assert (Hib : (ib <= j)%nat).
  { destruct (bisect_loop_spec (tr_begin r) c 0) as (k & Hk & Hbefore & Hcase).
    fold ib in Hcase.
    assert (Hkj : (k <= j)%nat).
    { destruct (Nat.le_gt_cases k j) as [H|H]; [exact H|].
      specialize (Hbefore j e H Hj). lia. }
    destruct Hcase as [[_ Hr]|[(? & _ & _ & Hr)|(? & _ & _ & Hr)]]; lia. }
  (* and before the end position *)
  assert (Hie : (j < ie)%nat).
  { destruct (bisect_loop_spec (tr_end r) (drop ib c) ib) as (k & Hk & _ & Hcase).
    fold ie in Hcase. rewrite length_drop in Hk.
    destruct Hcase as [[-> Hr]|[(ek & Hek & Heq & Hr)|(ek & Hek & Hgt & Hr)]].
    - apply lookup_lt_Some in Hj'. rewrite length_drop in Hr. lia.
    - rewrite lookup_drop in Hek.
      destruct (Nat.le_gt_cases (ib + k) j) as [H|H]; [|lia].
      pose proof (Hsorted (ib + k)%nat j ek e H Hek Hj). lia.
    - rewrite lookup_drop in Hek.
      destruct (Nat.le_gt_cases (ib + k) j') as [H|H].
      + pose proof (Hsorted (ib + k)%nat j' ek e' H Hek Hj'). lia.
      + lia. }
  apply (list_elem_of_lookup_2 _ (j - ib)%nat).
  rewrite lookup_take_lt by lia. rewrite lookup_drop.
  replace (ib + (j - ib))%nat with j by lia. exact Hj.
Qed.

(** *** Meta data *)

Lemma constructor_data cls arg ts :
  from_object arg -> TimeSeries_new cls arg = Return ts ->
  _data ts = Some (buildMetaData (givenMeta arg)).
Proof.
  intros Hobj Hnew.
  destruct arg as [other|decoded|events meta1|collection meta3|obj| |];
    try contradiction; cbn [TimeSeries_new] in Hnew.
  - apply checkChronological_Return in Hnew as [-> _]. reflexivity.
  - apply checkChronological_Return in Hnew as [-> _]. reflexivity.
  - destruct (traverse _ (w_points obj)) as [events|]; [|discriminate].
    apply checkChronological_Return in Hnew as [-> _]. reflexivity.
Qed.

(** X11.  The meta data of a series that the constructor built from an
    event list, a Collection or the tabular form: [isUTC()] is [true]
    whatever [utc] the argument had; [name()] is the given name, or the
    empty string when none (or a falsy one) was given; a non-empty string
    given as [index] is held as an Index and [indexAsString()] returns that
    string; every other property is returned by [meta(key)] as given. *)
Theorem constructor_meta (cls : SeriesClass) (arg : Arg) (ts : TimeSeries) :
  from_object arg -> TimeSeries_new cls arg = Return ts ->
  isUTC ts = Return (Some (MVal (VBool true)))
  /\ name ts = Return (Some (match givenMeta arg !! "name" with
                             | Some n => if mv_truthy n then n else MVal (VStr "")
                             | None => MVal (VStr "")
                             end))
  /\ (forall s, givenMeta arg !! "index" = Some (MVal (VStr s)) -> s <> "" ->
      index ts = Return (Some (MIndex (mkIndex s true)))
      /\ indexAsString ts = Return (Some s))
  /\ (forall k, k <> "" -> k <> "utc" -> k <> "index" -> k <> "name" ->
      meta ts (Some k) = Return (MetaOne (givenMeta arg !! k))).
Proof.
  intros Hobj Hnew. pose proof (constructor_data cls arg ts Hobj Hnew) as Hd.
  unfold isUTC, name, indexAsString, index, meta, data_get. rewrite Hd.
  split; [rewrite buildMetaData_lookup; reflexivity|].
  split; [rewrite buildMetaData_lookup; reflexivity|]. split.
  - intros s Hs Hne.
    assert (Hi : buildMetaData (givenMeta arg) !! "index"
                 = Some (MIndex (mkIndex s true))).
    { rewrite buildMetaData_lookup. rewrite decide_False by done.
      rewrite decide_True by done. unfold metaIndex. rewrite Hs. cbn [truthy].
      destruct (String.eqb_spec s ""); [congruence | reflexivity]. }
    cbn [cbind]. rewrite Hi. split; reflexivity.
  - intros k Hk Hu Hi Hn. destruct k as [|a k]; [congruence|]. cbn [cbind].
    rewrite buildMetaData_lookup. rewrite !decide_False by done. reflexivity.
Qed.

(** X12.  [setMeta(key, value)] on a series with meta data returns a
    series with the same collection whose [meta(k)] is [value] for [k = key]
    and what it was for every other key; [setName] then [name] gives the new
    name.  The receiver is a value and is not changed. *)
Theorem setMeta_then_meta (ts : TimeSeries) (d : Meta) (key : string) (value : MetaValue) :
  _data ts = Some d ->
  (exists ts',
     setMeta ts key value = Return ts'
     /\ _collection ts' = _collection ts
     /\ forall k, k <> "" ->
          meta ts' (Some k)
          = if decide (k = key) then Return (MetaOne (Some value)) else meta ts (Some k))
  /\ (exists ts', setName ts value = Return ts' /\ name ts' = Return (Some value)).
Proof.
  intros Hd. split.
  - exists (mkTimeSeries (_collection ts) (Some (<[key := value]> d))).
    unfold setMeta. cbn [TimeSeries_new cbind _data _collection]. rewrite Hd.
    repeat split. intros k Hk. destruct k as [|a k]; [congruence|].
    unfold meta, data_get. cbn [_data cbind]. rewrite Hd.
    destruct (decide (String a k = key)) as [->|Hne].
    + rewrite lookup_insert_eq. reflexivity.
    + rewrite lookup_insert_ne by congruence. reflexivity.
  - exists (mkTimeSeries (_collection ts) (Some (<["name" := value]> d))).
    unfold setName, setMeta. cbn [TimeSeries_new cbind _data _collection]. rewrite Hd.
    split; [reflexivity|]. unfold name, data_get. cbn [_data].
    rewrite lookup_insert_eq. reflexivity.
Qed.

(** *** columns *)




(** *** From the tabular form to [toJSON] *)






(** *** Events and rows *)

(** X23.  The row that [toPoint] makes of an event with distinct field
    names, read back by the constructor under the key column of the event
    and these field names, is the event again; for an indexed event the
    [utc] flag of the table must be that of its index. *)
Theorem toPoint_read_back (e : Event) (utc : bool) :
  NoDup (map fst (data e)) ->
  (forall i d, e = IndexedEvent i d -> idx_utc i = utc) ->
  readPoint TimeSeriesClass (Some (keyColumn e)) (map fst (data e)) utc (toPoint e)
  = Return e.
Proof.
  intros Hnd Hutc. unfold readPoint.
  assert (Hd : object (map fst (data e)) (p_values (toPoint e)) = data e).
  { destruct e; simpl in *; apply object_keys_values; exact Hnd. }
  rewrite Hd. destruct e as [t d|r d|i d]; simpl.
  - reflexivity.
  - destruct r. reflexivity.
  - rewrite <- (Hutc i d eq_refl). destruct i. reflexivity.
Qed.

(** *** toAvro *)


(** *** Rollups and fill *)

(** X16.  The calendar rollups are fixed window rollups under the window
    names ["daily"], ["monthly"] and ["yearly"]: same guard on the
    aggregation, same pipeline, same unchecked [setCollection]. *)
Theorem calendar_rollups_fixed_window
  (Aggregation : Type)
  (windowedAggregate : option Collection -> string -> Aggregation -> bool ->
                       completion (option Collection))
  (ts : TimeSeries) (options : RollupOptions Aggregation) :
  let windowed w :=
    RollupObject Aggregation
      (mkRollupOptions Aggregation (Some w) (aggregation Aggregation options)
                       (toTimeEvents Aggregation options)) in
  dailyRollup Aggregation windowedAggregate ts options
  = fixedWindowRollup Aggregation windowedAggregate ts (windowed "daily")
  /\ monthlyRollup Aggregation windowedAggregate ts options
     = fixedWindowRollup Aggregation windowedAggregate ts (windowed "monthly")
  /\ yearlyRollup Aggregation windowedAggregate ts options
     = fixedWindowRollup Aggregation windowedAggregate ts (windowed "yearly").
Proof.
  cbn zeta. unfold dailyRollup, monthlyRollup, yearlyRollup, _rollup, fixedWindowRollup. cbn [destructure windowSize aggregation toTimeEvents].
  destruct (aggregation Aggregation options); repeat split; reflexivity.
Qed.

(** X17.  [fill] accepts the methods ["zero"] (the default) and ["pad"],
    and ["linear"] only together with a list of field paths.  Every other
    call throws [Error("Invalid fill method:")] before any stage of the
    pipeline runs: an unknown method, and also ["linear"] with a single
    field path or with none. *)
Theorem fill_invalid_method
  (Pipeline : Type)
  (pipeline_from : option Collection -> completion Pipeline)
  (pipeline_fill : Pipeline -> option FieldSpec -> string -> option nat ->
                   completion Pipeline)
  (toKeyedCollections_all : Pipeline -> completion (option Collection))
  (ts : TimeSeries) (options : FillOptions) (p : Pipeline) :
  let method := default "zero" (fill_method options) in
  pipeline_from (_collection ts) = Return p ->
  method <> "zero" -> method <> "pad" ->
  (method = "linear" -> forall paths, fill_fieldSpec options <> Some (FieldPaths paths)) ->
  fill Pipeline pipeline_from pipeline_fill toKeyedCollections_all ts options
  = Throw (Error "Invalid fill method:").
Proof.
  cbn zeta. intros Hp Hz Hpad Hl. unfold fill. rewrite Hp. cbn [cbind].
  destruct (String.eqb_spec (default "zero" (fill_method options)) "zero"); [congruence|].
  destruct (String.eqb_spec (default "zero" (fill_method options)) "pad"); [congruence|].
  cbn [orb].
  destruct (String.eqb_spec (default "zero" (fill_method options)) "linear") as [El|El].
  - specialize (Hl El).
    destruct (fill_fieldSpec options) as [[path|paths]|]; try reflexivity.
    exfalso. apply (Hl paths). reflexivity.
  - reflexivity.
Qed.

End OperationProperties.

(** ** The first Series classes *)

Section LegacyProperties.

Import Legacy.

Lemma pointMap_from_combine (o : Data) columns d :
  length d = length columns -> NoDup (map fst o ++ columns)%list ->
  pointMap_from o columns d = (o ++ combine columns d)%list.
Proof.
  revert o d. induction columns as [|n columns IH]; intros o d Hlen Hnd.
  - destruct d; [|discriminate]. simpl. rewrite app_nil_r. reflexivity.
  - destruct d as [|v d]; [discriminate|]. simpl in *.
    assert (Hn : n ∉ map fst o).
    { apply NoDup_app in Hnd as (_ & Hd & _). intros Hin. apply (Hd n Hin). left. }
    rewrite obj_set_fresh by assumption. rewrite IH.
    + rewrite <- app_assoc. reflexivity.
    + lia.
    + rewrite map_app. simpl. rewrite <- app_assoc. exact Hnd.
Qed.

Lemma get_fresh (d : Data) k v rest :
  k ∉ map fst d -> get (d ++ (k, v) :: rest)%list k = v.
Proof.
  induction d as [|[k' v'] d IH]; simpl; intros Hk.
  - rewrite String.eqb_refl. reflexivity.
  - apply not_elem_of_cons in Hk as [Hne Hk].
    destruct (String.eqb_spec k' k); [congruence | apply IH, Hk].
Qed.

Lemma get_combine (o : Data) columns d :
  length d = length columns -> NoDup (map fst o ++ columns)%list ->
  map (get (o ++ combine columns d)%list) columns = d.
Proof.
  revert o d. induction columns as [|n columns IH]; intros o d Hlen Hnd.
  - destruct d; [reflexivity | discriminate].
  - destruct d as [|v d]; [discriminate|]. simpl in *.
    assert (Hn : n ∉ map fst o).
    { apply NoDup_app in Hnd as (_ & Hd & _). intros Hin. apply (Hd n Hin). left. }
    rewrite get_fresh by assumption. f_equal.
    specialize (IH (o ++ [(n, v)])%list d).
    rewrite <- app_assoc in IH. apply IH; [lia|].
    rewrite map_app. simpl. rewrite <- app_assoc. exact Hnd.
Qed.

(** A full row under distinct column names is read back as it was. *)
Lemma get_pointMap columns d :
  NoDup columns -> length d = length columns ->
  map (get (pointMap columns d)) columns = d.
Proof.
  intros Hnd Hlen. unfold pointMap.
  rewrite pointMap_from_combine by (simpl; assumption).
  apply (get_combine [] columns d); simpl; assumption.
Qed.

Lemma points_from_rows fields (points : list (list Value)) :
  NoDup fields ->
  Forall (fun row => length row = S (length fields)) points ->
  points_from (map (hd VUndefined) points) fields
              (map (pointMap fields) (map (@tl Value) points))
  = points.
Proof.
  intros Hnd Hall. induction Hall as [|row points Hrow _ IH]; simpl; [reflexivity|].
  rewrite IH. destruct row as [|t others]; [discriminate|]. simpl in *.
  rewrite get_pointMap by (auto; lia). reflexivity.
Qed.

(** X18.  The first TimeSeries, from the tabular form to [toJSON]: for a
    table whose name is a string (or falsy, which makes it the empty
    string), with distinct field names after the first column and full
    rows, [toJSON] returns the rows and the other properties of the table;
    the first column comes back under the name ["time"], whatever it was
    called. *)
Theorem legacy_toJSON_of_tabular (name : Value) (column0 : string)
  (fields : list string) (points : list (list Value)) (meta : gmap string Value) :
  (truthy name = true -> exists s, name = VStr s) ->
  NoDup fields ->
  Forall (fun row => length row = S (length fields)) points ->
  meta !! "name" = None -> meta !! "columns" = None -> meta !! "points" = None ->
  TimeSeries_toJSON (TimeSeries_new (TWire name (column0 :: fields) points meta))
  = Done (mkJSON (if truthy name then name else VStr "") ("time" :: fields) points meta).
Proof.
  intros Hname Hnd Hfull Hn Hc Hp. unfold TimeSeries_new. cbn [tl].
  assert (Hstr : exists s, (if truthy name then name else VStr "") = VStr s).
  { destruct (truthy name); [auto | eauto]. }
  destruct Hstr as [s Hs]. rewrite Hs. unfold Series_init.
  unfold TimeSeries_toJSON. cbn [_series _times _columns _meta _name].
  rewrite points_from_rows by assumption.
  rewrite !delete_id by (rewrite ?lookup_delete_ne by done; assumption).
  destruct points; reflexivity.
Qed.

(** X19.  A copy made by the constructor of the first TimeSeries has no
    name and no meta data, whatever series it copies, and for want of meta
    data its [toJSON] throws a TypeError.  The copy made by the constructor
    of Series keeps the meta data, the columns and the rows, and has no name
    either. *)
Theorem legacy_copy_loses_name (other : Series) :
  name (TimeSeries_new (TCopy other)) = VUndefined
  /\ TimeSeries_toJSON (TimeSeries_new (TCopy other)) = Raise TypeError
  /\ name (Series_new (SCopy other)) = VUndefined
  /\ _meta (Series_new (SCopy other)) = _meta other
  /\ _columns (Series_new (SCopy other)) = _columns other
  /\ _series (Series_new (SCopy other)) = _series other.
Proof.
  repeat split. unfold TimeSeries_toJSON. cbn.
  destruct (_series other) as [[|row rows]|]; [| |reflexivity].
  - destruct (_columns other); reflexivity.
  - destruct (_times other), (_columns other); reflexivity.
Qed.

(** X20.  [toJSON] of Series, on a series built from a name, columns and
    rows, throws a ReferenceError as soon as there is a row and a column:
    its callback uses [data], which it never declares. *)
Theorem Series_toJSON_undeclared_data (n : string) (meta : gmap string Value)
  (columns : list string) (rows : list (list Value)) :
  columns <> [] -> rows <> [] ->
  Series_toJSON (Series_new (SObject (VStr n) meta columns (RowsArray rows)))
  = Raise (ReferenceError "data").
Proof.
  intros Hc Hr. unfold Series_toJSON. cbn.
  destruct rows; [congruence|]. destruct columns; [congruence|]. reflexivity.
Qed.


End LegacyProperties.

(** * The further properties at concrete inputs *)


(** Buckets of zero seconds. *)
Lemma bucketIndex_zero_count_witness :
  Generator.bucketIndexOf ("0" ++ String "s" "") 5000
  = Return (("0" ++ String "s" "") ++ "-NaN").
Proof.
  apply (bucketIndex_zero_count "0" "s"%char 5000);
    [discriminate | reflexivity | reflexivity | reflexivity].
Defined.

(** [bisect] from position 1 of the series at 100, 200, 300. *)
Lemma bisect_hint_bounds_witness :
  let c := [sample 100 1; sample 200 2; sample 300 3] in
  exists i, bisect series3 250 (Some 1%nat) = Some i
    /\ (1 - 1 <= i)%nat
    /\ ((1 < length c)%nat -> (i < length c)%nat)
    /\ ((length c <= 1)%nat -> i = (1 - 1)%nat).
Proof.
  cbn zeta.
  apply (bisect_hint_bounds series3 [sample 100 1; sample 200 2; sample 300 3] 250 1);
    [reflexivity | discriminate].
Defined.

Lemma bisect_hint_agrees_witness :
  bisect series3 250 (Some 1%nat) = bisect series3 250 None.
Proof.
  apply (bisect_hint_agrees series3 [sample 100 1; sample 200 2; sample 300 3] 250 1);
    [reflexivity | simpl; lia |].
  intros [|j] e Hj He; [|lia]. inversion He; subst. simpl. lia.
Defined.

Lemma atTime_latest_not_after_witness :
  let c := [sample 100 1; sample 200 2; sample 300 3] in
  (c = [] -> atTime series3 250 = None)
  /\ (c <> [] ->
      exists e, atTime series3 250 = Some e /\ e ∈ c
        /\ (isChronological c = true ->
            ((exists e', e' ∈ c /\ timestamp e' <= 250) ->
             timestamp e <= 250
             /\ forall e', e' ∈ c -> timestamp e' <= 250 -> timestamp e' <= timestamp e)
            /\ ((forall e', e' ∈ c -> 250 < timestamp e') -> head c = Some e))).
Proof.
  cbn zeta.
  apply (atTime_latest_not_after series3 [sample 100 1; sample 200 2; sample 300 3] 250).
  reflexivity.
Defined.

Lemma slice_chronological_witness :
  let c := [sample 100 1; sample 200 2; sample 300 3] in
  exists c',
    slice series3 (Some 1%nat) None = Return (mkTimeSeries (Some c') (_data series3))
    /\ length c' = (Nat.min (length c) (length c) - 1)%nat
    /\ (forall j, (1 + j < length c)%nat -> c' !! j = c !! (1 + j)%nat)
    /\ (forall j, (length c <= 1 + j)%nat -> c' !! j = None)
    /\ (isChronological c = true -> isChronological c' = true).
Proof.
  cbn zeta.
  apply (slice_chronological series3 [sample 100 1; sample 200 2; sample 300 3]
           (Some 1%nat) None).
  reflexivity.
Defined.

(** Cropping the series at 100, 200, 300 to the range from 150 to 250. *)
Lemma crop_before_end_witness :
  let c := [sample 100 1; sample 200 2; sample 300 3] in
  exists i c',
    crop series3 (mkTimeRange 150 250)
    = Return (mkTimeSeries (Some c') (_data series3))
    /\ c' = take (length c') (drop i c)
    /\ (i + length c' <= length c - 1)%nat
    /\ Forall (fun e => timestamp e < tr_end (mkTimeRange 150 250)) c'.
Proof.
  cbn zeta.
  apply (crop_before_end series3 [sample 100 1; sample 200 2; sample 300 3]
           (mkTimeRange 150 250)).
  reflexivity.
Defined.

Lemma crop_chronological_witness :
  exists c',
    crop series3 (mkTimeRange 150 250)
    = Return (mkTimeSeries (Some c') (_data series3))
    /\ isChronological c' = true
    /\ forall j e, (0 < j)%nat -> c' !! j = Some e ->
         tr_begin (mkTimeRange 150 250) <= timestamp e.
Proof.
  apply (crop_chronological series3 [sample 100 1; sample 200 2; sample 300 3]
           (mkTimeRange 150 250)); reflexivity.
Defined.

(** What [crop] returns there: the event at 100, before the range, and not
    the event at 200, inside it. *)
Example crop_example :
  crop series3 (mkTimeRange 150 250)
  = Return (mkTimeSeries (Some [sample 100 1]) (_data series3)).
Proof. reflexivity. Qed.

(** The event at 100 is kept by the crop to the range from 100 to 300: the
    event at 200 follows it. *)
Lemma crop_keeps_all_but_last_witness :
  exists c',
    crop series3 (mkTimeRange 100 300)
    = Return (mkTimeSeries (Some c') (_data series3))
    /\ sample 100 1 ∈ c'.
Proof.
  apply (crop_keeps_all_but_last series3 [sample 100 1; sample 200 2; sample 300 3]
           (mkTimeRange 100 300) 0 (sample 100 1));
    [reflexivity | reflexivity | reflexivity | simpl; lia |].
  exists 1%nat, (sample 200 2). split; [lia|]. split; [reflexivity | simpl; lia].
Defined.

(** An event list given with [utc: false] and an index. *)
Lemma constructor_meta_witness :
  let given : Meta :=
    <["utc" := MVal (VBool false)]> (<["index" := MVal (VStr "1d-5")]> ∅) in
  let ts := mkTimeSeries (Some [sample 1 10]) (Some (buildMetaData given)) in
  isUTC ts = Return (Some (MVal (VBool true)))
  /\ name ts = Return (Some (match givenMeta (ArgEvents [sample 1 10] given) !! "name" with
                             | Some n => if mv_truthy n then n else MVal (VStr "")
                             | None => MVal (VStr "")
                             end))
  /\ (forall s, givenMeta (ArgEvents [sample 1 10] given) !! "index" = Some (MVal (VStr s)) ->
      s <> "" ->
      index ts = Return (Some (MIndex (mkIndex s true)))
      /\ indexAsString ts = Return (Some s))
  /\ (forall k, k <> "" -> k <> "utc" -> k <> "index" -> k <> "name" ->
      meta ts (Some k)
      = Return (MetaOne (givenMeta (ArgEvents [sample 1 10] given) !! k))).
Proof.
  cbn zeta.
  apply (constructor_meta TimeSeriesClass
           (ArgEvents [sample 1 10]
              (<["utc" := MVal (VBool false)]> (<["index" := MVal (VStr "1d-5")]> ∅))));
    [exact I | reflexivity].
Defined.

Lemma setMeta_then_meta_witness :
  (exists ts',
     setMeta series3 "unit" (MVal (VStr "bps")) = Return ts'
     /\ _collection ts' = _collection series3
     /\ forall k, k <> "" ->
          meta ts' (Some k)
          = if decide (k = "unit") then Return (MetaOne (Some (MVal (VStr "bps"))))
            else meta series3 (Some k))
  /\ (exists ts', setName series3 (MVal (VStr "bps")) = Return ts'
                  /\ name ts' = Return (Some (MVal (VStr "bps")))).
Proof.
  apply (setMeta_then_meta series3 (buildMetaData ∅) "unit" (MVal (VStr "bps"))).
  reflexivity.
Defined.


(** The row of an indexed event. *)
Lemma toPoint_read_back_witness :
  readPoint TimeSeriesClass
    (Some (keyColumn (IndexedEvent (mkIndex "1d-12355" true) [("value", VNum 42)])))
    (map fst (data (IndexedEvent (mkIndex "1d-12355" true) [("value", VNum 42)])))
    true
    (toPoint (IndexedEvent (mkIndex "1d-12355" true) [("value", VNum 42)]))
  = Return (IndexedEvent (mkIndex "1d-12355" true) [("value", VNum 42)]).
Proof.
  apply (toPoint_read_back (IndexedEvent (mkIndex "1d-12355" true) [("value", VNum 42)]) true).
  - apply (bool_decide_unpack _). vm_compute. exact I.
  - intros i d H. inversion H. reflexivity.
Defined.


(** An empty series has no Avro form. *)
Example toAvro_empty_throws :
  toAvro AvroObject (fun _ o => Return o) TimeSeriesClass emptySeries = Throw TypeError.
Proof. reflexivity. Qed.

(** Linear interpolation of a single column is refused. *)
Lemma fill_invalid_method_witness :
  fill unit (fun _ => Return tt) (fun p _ _ _ => Return p) (fun _ => Return None) series3
       (mkFillOptions (Some (FieldPath "value")) (Some "linear") None)
  = Throw (Error "Invalid fill method:").
Proof.
  apply (fill_invalid_method unit (fun _ => Return tt) (fun p _ _ _ => Return p)
           (fun _ => Return None) series3
           (mkFillOptions (Some (FieldPath "value")) (Some "linear") None) tt);
    [reflexivity | discriminate | discriminate | intros _ paths; discriminate].
Defined.

(** The first TimeSeries on a table of two rows. *)
Lemma legacy_toJSON_of_tabular_witness :
  Legacy.TimeSeries_toJSON
    (Legacy.TimeSeries_new
       (Legacy.TWire (VStr "traffic") ("when" :: ["in"; "out"])
          [[VNum 1400425947000; VNum 52; VNum 12]; [VNum 1400425948000; VNum 18; VNum 30]]
          ∅))
  = Legacy.Done
      (Legacy.mkJSON (if truthy (VStr "traffic") then VStr "traffic" else VStr "")
         ("time" :: ["in"; "out"])
         [[VNum 1400425947000; VNum 52; VNum 12]; [VNum 1400425948000; VNum 18; VNum 30]]
         ∅).
Proof.
  apply (legacy_toJSON_of_tabular (VStr "traffic") "when" ["in"; "out"]
           [[VNum 1400425947000; VNum 52; VNum 12]; [VNum 1400425948000; VNum 18; VNum 30]]
           ∅);
    [intros _; eexists; reflexivity | | repeat constructor
     | reflexivity | reflexivity | reflexivity].
  apply (bool_decide_unpack _). vm_compute. exact I.
Defined.

Lemma Series_toJSON_undeclared_data_witness :
  Legacy.Series_toJSON
    (Legacy.Series_new
       (Legacy.SObject (VStr "traffic") ∅ ["value"] (Legacy.RowsArray [[VNum 52]])))
  = Legacy.Raise (Legacy.ReferenceError "data").
Proof.
  apply (Series_toJSON_undeclared_data "traffic" ∅ ["value"] [[VNum 52]]);
    discriminate.
Defined.
